(** * DestVI: the deconvolution module [HSTDeconv], the model wrapper
    [DestVI] and the configuration split of [Autotune]

    Shallow embedding of
    - [scvi/external/destvi/_module.py]  (class [HSTDeconv]),
    - [scvi/model/_destvi.py]            (class [DestVI]),
    - [scvi/autotune/_autotune.py]       (class [Autotune]).

    Tensors hold real numbers (exact arithmetic); a tensor is its shape
    together with an index function.  Library code that is not part of the
    repository sources (the [FCLayers] and [Linear] layers, the softplus
    kernel, the negative binomial log density) is a parameter of the
    development. *)

From Stdlib Require Import Reals Lra Lia List Arith Bool.
From stdpp Require Import gmap strings.
Import ListNotations.
Open Scope R_scope.

(** ** Tensors *)

Record Tensor2 := mkT2 { rows : nat; cols : nat; at2 : nat -> nat -> R }.

Record Tensor3 := mkT3
  { dim0 : nat; dim1 : nat; dim2 : nat; at3 : nat -> nat -> nat -> R }.

(** A column of integer indices ([ind_x[:, 0]], [y[:, 0]]).  The indices
    are non-negative, as the registered spot indices and the labels are;
    negative indices, which indexing would wrap around, are not
    represented. *)
Record IndexTensor := mkIx { len : nat; idx : nat -> nat }.

(** [rsum n f] is [f 0 + ... + f (n-1)]: [torch.sum] along an axis of
    size [n]. *)
Fixpoint rsum (n : nat) (f : nat -> R) : R :=
  match n with
  | O => 0
  | S k => rsum k f + f k
  end.

Definition numel2 (t : Tensor2) : nat := (rows t * cols t)%nat.
Definition numel3 (t : Tensor3) : nat := (dim0 t * dim1 t * dim2 t)%nat.

(** Row-major (C order) flat indexing, as [reshape] reads its argument. *)
Definition flat2 (t : Tensor2) (n : nat) : R :=
  at2 t (n / cols t)%nat (n mod cols t)%nat.

Definition flat3 (t : Tensor3) (n : nat) : R :=
  at3 t (n / (dim1 t * dim2 t))%nat ((n / dim2 t) mod dim1 t)%nat
        (n mod dim2 t)%nat.

(** [torch.transpose(t, 0, 1)] and numpy's [.T] on a matrix. *)
Definition transpose01 (t : Tensor2) : Tensor2 :=
  {| rows := cols t; cols := rows t; at2 := fun i j => at2 t j i |}.

(** [torch.transpose(t, 2, 0)]. *)
Definition transpose20 (t : Tensor3) : Tensor3 :=
  {| dim0 := dim2 t; dim1 := dim1 t; dim2 := dim0 t;
     at3 := fun i j k => at3 t k j i |}.

(** Elementwise map. *)
Definition map2d (f : R -> R) (t : Tensor2) : Tensor2 :=
  {| rows := rows t; cols := cols t; at2 := fun i j => f (at2 t i j) |}.

(** [torch.log(1 + x)]. *)
Definition log1p (x : Tensor2) : Tensor2 := map2d (fun a => ln (1 + a)) x.

(** [res[:, :-1]]: all columns but the last. *)
Definition drop_last_col (t : Tensor2) : Tensor2 :=
  {| rows := rows t; cols := (cols t - 1)%nat; at2 := at2 t |}.

(** [res.sum(axis=1)]. *)
Definition row_sum (t : Tensor2) (i : nat) : R := rsum (cols t) (at2 t i).

(** [res / res.sum(axis=1).reshape(-1, 1)]. *)
Definition normalize_rows (t : Tensor2) : Tensor2 :=
  {| rows := rows t; cols := cols t;
     at2 := fun i j => at2 t i j / row_sum t i |}.

(** [torch.cat([a, b])] along the first axis. *)
Definition cat_rows (a b : Tensor2) : Tensor2 :=
  {| rows := (rows a + rows b)%nat; cols := cols a;
     at2 := fun i j => if (i <? rows a)%nat then at2 a i j
                       else at2 b (i - rows a)%nat j |}.

(** [torch.cat([a, b], dim=1)] on three-axis tensors. *)
Definition cat_dim1 (a b : Tensor3) : Tensor3 :=
  {| dim0 := dim0 a; dim1 := (dim1 a + dim1 b)%nat; dim2 := dim2 a;
     at3 := fun i j k => if (j <? dim1 a)%nat then at3 a i j k
                         else at3 b i (j - dim1 a)%nat k |}.

(** ** Densities *)

(** [torch.distributions.Normal(loc, scale).log_prob(value)]. *)
Definition normal_log_prob (loc scale value : R) : R :=
  - ((value - loc) ^ 2) / (2 * scale ^ 2) - ln scale - ln (sqrt (2 * PI)).

(** [torch.logsumexp] over an axis of size [n]. *)
Definition logsumexp (n : nat) (f : nat -> R) : R :=
  ln (rsum n (fun k => exp (f k))).

(** The softplus kernel in exact arithmetic, with torch's defaults
    [beta = 1], [threshold = 20]: linear above the threshold. *)
Definition softplus_real (t : R) : R :=
  if Rlt_dec 20 t then t else ln (1 + exp t).


(** ** Exceptions and the record of encoder calls *)

Inductive exn :=
| TypeError | AttributeError | IndexError | RuntimeError | ValueError
| NotImplementedError.

(** One entry per invocation of an amortization encoder, with the tensor
    it was given. *)
Inductive call :=
| V_encoder_call (x : Tensor2)
| gamma_encoder_call (x : Tensor2).

(** A computation logs the encoder calls it makes and either raises or
    returns. *)
Definition Eff (A : Type) : Type := (list call * (exn + A))%type.

Definition ret {A} (a : A) : Eff A := ([], inr a).
Definition raise {A} (e : exn) : Eff A := ([], inl e).
Definition log_call (c : call) : Eff unit := ([c], inr tt).

Definition bind {A B} (m : Eff A) (f : A -> Eff B) : Eff B :=
  match m with
  | (t, inl e) => (t, inl e)
  | (t, inr a) => let '(t', r) := f a in (t ++ t', r)
  end.

Notation "'let*' x ':=' m 'in' k" := (bind m (fun x => k))
  (at level 10, x pattern, m at level 100, k at level 200).

Definition trace {A} (m : Eff A) : list call := fst m.
Definition outcome {A} (m : Eff A) : exn + A := snd m.

(** [reshape] with one inferred ([-1]) dimension: [known] is the product
    of the given dimensions. *)
Definition infer_dim (numel known : nat) : Eff nat :=
  if (known =? 0)%nat then raise RuntimeError
  else if (numel mod known =? 0)%nat then ret (numel / known)%nat
  else raise RuntimeError.

(** [t.reshape((d0, d1, -1))]. *)
Definition reshape_to3 (d0 d1 : nat) (t : Tensor2) : Eff Tensor3 :=
  let* d2 := infer_dim (numel2 t) (d0 * d1) in
  ret {| dim0 := d0; dim1 := d1; dim2 := d2;
         at3 := fun i j k => flat2 t ((i * d1 + j) * d2 + k)%nat |}.

(** [t.reshape((-1, c))]. *)
Definition reshape_to2 (c : nat) (t : Tensor3) : Eff Tensor2 :=
  let* r := infer_dim (numel3 t) c in
  ret {| rows := r; cols := c;
         at2 := fun i j => flat3 t (i * c + j)%nat |}.

(** Index bound check of advanced indexing along an axis of size [n]. *)
Definition check_index (n : nat) (ix : IndexTensor) : Eff unit :=
  if forallb (fun m => (idx ix m <? n)%nat) (seq 0 (len ix))
  then ret tt else raise IndexError.

(** ** Parameters and modules *)

Inductive Amortization := none | latent | proportion | both.

(** [amortization in ["both", "proportion"]]. *)
Definition amortized_proportion (a : Amortization) : bool :=
  match a with both | proportion => true | _ => false end.

(** [amortization in ["both", "latent"]]. *)
Definition amortized_latent (a : Amortization) : bool :=
  match a with both | latent => true | _ => false end.

(** A [torch.nn.Parameter]: its value and its gradient flag. *)
Record TorchParameter (A : Type) := mkParam { data : A; requires_grad : bool }.
Arguments mkParam {A} _ _.
Arguments data {A} _.
Arguments requires_grad {A} _.

(** The optional VAMP prior bank, axes [n_labels, p, n_latent]. *)
Record VampPrior := mkVamp
  { p : nat;
    mean_vprior : nat -> nat -> nat -> R;
    var_vprior : nat -> nat -> nat -> R }.

(** ** The module [HSTDeconv] *)

Section Torch.

(** The softplus kernel ([torch.nn.functional.softplus],
    [torch.nn.Softplus]). *)
Variable softplus : R -> R.

(** Weight tensors of the library layers, and the layers' forward maps:
    [FCLayers_forward ws x cats i j] is entry [(i, j)] of the output of an
    [FCLayers] stack with weights [ws] on the batch [x] and the categorical
    covariates [cats]; likewise [Linear_forward]. *)
Variable wt : Type.
Variable FCLayers_forward :
  list wt -> Tensor2 -> list IndexTensor -> nat -> nat -> R.
Variable Linear_forward : list wt -> Tensor2 -> nat -> nat -> R.

(** [NegativeBinomial(px_rate, logits=px_o).log_prob(x)], entrywise. *)
Variable nb_log_prob : R -> R -> R -> R.

(** A [torch.nn.Module]: its named parameters. *)
Definition nn_Module : Type := list (string * TorchParameter wt).

Definition weights (m : nn_Module) : list wt := map (fun kp => data (snd kp)) m.

Record HSTDeconv := mkHSTDeconv
  { n_spots : nat;
    n_labels : nat;
    n_hidden : nat;
    n_latent : nat;
    n_genes : nat;
    amortization : Amortization;
    decoder : nn_Module;
    px_decoder : nn_Module;
    px_o : nat -> R;
    V : TorchParameter (nat -> nat -> R);
    gamma : TorchParameter (nat -> nat -> nat -> R);
    vprior : option VampPrior;
    eta : TorchParameter (nat -> R);
    beta : TorchParameter (nat -> R);
    gamma_encoder : nn_Module * nn_Module;
    V_encoder : nn_Module }.

Section Methods.

Variable self : HSTDeconv.

(** [self.decoder(x, labels)]: [FCLayers] with [n_out = n_hidden] and one
    categorical covariate. *)
Definition decoder_forward (x : Tensor2) (labels : IndexTensor) : Tensor2 :=
  {| rows := rows x; cols := n_hidden self;
     at2 := FCLayers_forward (weights (decoder self)) x [labels] |}.

(** [self.px_decoder(h)]: [Linear(n_hidden, n_genes)] then [Softplus]. *)
Definition px_decoder_forward (h : Tensor2) : Tensor2 :=
  {| rows := rows h; cols := n_genes self;
     at2 := fun i j =>
       softplus (Linear_forward (weights (px_decoder self)) h i j) |}.

(** [self.gamma_encoder(x)]: [FCLayers] then
    [Linear(n_hidden, n_latent * n_labels)]; a missing [x] is a type
    error.  The layers are library code: the kind of that error, and that
    it comes before any computation, are taken from their use on [None];
    their own error on a batch that has not [n_genes] columns is not
    modelled. *)
Definition call_gamma_encoder (x : option Tensor2) : Eff Tensor2 :=
  match x with
  | None => raise TypeError
  | Some x =>
    let* _ := log_call (gamma_encoder_call x) in
    let h := {| rows := rows x; cols := n_hidden self;
                at2 := FCLayers_forward
                         (weights (fst (gamma_encoder self))) x [] |} in
    ret {| rows := rows x; cols := (n_latent self * n_labels self)%nat;
           at2 := Linear_forward (weights (snd (gamma_encoder self))) h |}
  end.

(** [self.V_encoder(x)]: [FCLayers] with [n_out = n_labels + 1]; on a
    missing [x] and on a batch of another width as for
    [call_gamma_encoder]. *)
Definition call_V_encoder (x : option Tensor2) : Eff Tensor2 :=
  match x with
  | None => raise TypeError
  | Some x =>
    let* _ := log_call (V_encoder_call x) in
    ret {| rows := rows x; cols := (n_labels self + 1)%nat;
           at2 := FCLayers_forward (weights (V_encoder self)) x [] |}
  end.

(** [self.V] as a tensor of shape [n_labels + 1, n_spots]. *)
Definition V_tensor : Tensor2 :=
  {| rows := (n_labels self + 1)%nat; cols := n_spots self;
     at2 := data (V self) |}.

(** [self.gamma] as a tensor of shape [n_latent, n_labels, n_spots]. *)
Definition gamma_tensor : Tensor3 :=
  {| dim0 := n_latent self; dim1 := n_labels self; dim2 := n_spots self;
     at3 := data (gamma self) |}.

Definition get_proportions (x : option Tensor2) (keep_noise : bool)
  : Eff Tensor2 :=
  let* res :=
    (if amortized_proportion (amortization self)
     then let* out := call_V_encoder x in ret (map2d softplus out)
     else ret (transpose01 (map2d softplus V_tensor))) in
  let res := if negb keep_noise then drop_last_col res else res in
  ret (normalize_rows res).

Definition get_gamma (x : option Tensor2) : Eff Tensor3 :=
  if amortized_latent (amortization self)
  then let* g := call_gamma_encoder x in
       reshape_to3 (n_latent self) (n_labels self) (transpose01 g)
  else ret gamma_tensor.

(** [self.gamma[:, :, ind_x[:, 0]]]. *)
Definition gamma_at (ind_x : IndexTensor) : Eff Tensor3 :=
  let* _ := check_index (n_spots self) ind_x in
  ret {| dim0 := n_latent self; dim1 := n_labels self; dim2 := len ind_x;
         at3 := fun l c m => data (gamma self) l c (idx ind_x m) |}.

(** [self.V[:, ind_x[:, 0]].T]. *)
Definition V_at (ind_x : IndexTensor) : Eff Tensor2 :=
  let* _ := check_index (n_spots self) ind_x in
  ret {| rows := len ind_x; cols := (n_labels self + 1)%nat;
         at2 := fun m k => data (V self) k (idx ind_x m) |}.

(** [torch.log(1 + x)] on an optional argument: adding to [None] is a type
    error. *)
Definition log1p_opt (x : option Tensor2) : Eff Tensor2 :=
  match x with
  | None => raise TypeError
  | Some x => ret (log1p x)
  end.

(** Using an optional argument: subscripting [None] is a type error,
    reading an attribute of [None] an attribute error. *)
Definition require {A} (e : exn) (x : option A) : Eff A :=
  match x with
  | None => raise e
  | Some a => ret a
  end.

(** [x], [ind_x] and [y] hold one row per queried spot. *)
Definition get_ct_specific_expression
  (x : option Tensor2) (ind_x y : option IndexTensor) : Eff Tensor2 :=
  let beta_ := fun g => softplus (data (beta self) g) in
  let* gamma_ind :=
    (if amortized_latent (amortization self)
     then let* x_ := log1p_opt x in
          let* g := call_gamma_encoder (Some x_) in
          reshape_to3 (n_latent self) (n_labels self) (transpose01 g)
     else let* ix := require TypeError ind_x in gamma_at ix) in
  let* y := require TypeError y in
  let* ix := require AttributeError ind_x in
  let* _ := check_index (dim1 gamma_ind) y in
  let gamma_select :=
    {| rows := len ix; cols := n_latent self;
       at2 := fun b l => at3 gamma_ind l (idx y b) b |} in
  let h := decoder_forward gamma_select y in
  let px_scale := px_decoder_forward h in
  ret {| rows := rows px_scale; cols := cols px_scale;
         at2 := fun b g =>
           exp (px_o self g) * beta_ g * at2 px_scale b g |}.

(** The [dict] returned by [generative]. *)
Record GenerativeOutputs := mkGen
  { out_px_o : nat -> R;
    out_px_rate : Tensor2;
    out_px_scale : Tensor2;
    out_gamma : Tensor3;
    out_v : Tensor2 }.

(** [torch.arange(0, n_labels).repeat((M)).view((-1, 1))]. *)
Definition enum_label (M : nat) : IndexTensor :=
  {| len := (M * n_labels self)%nat;
     idx := fun r => (r mod n_labels self)%nat |}.

Definition inference : Eff unit := ret tt.

Definition generative (x : Tensor2) (ind_x : IndexTensor)
  : Eff GenerativeOutputs :=
  let M := rows x in
  let library := fun m => rsum (cols x) (at2 x m) in
  let beta_ := fun g => softplus (data (beta self) g) in
  let eps := fun g => softplus (data (eta self) g) in
  let x_ := log1p x in
  let* gamma_ind :=
    (if amortized_latent (amortization self)
     then let* g := call_gamma_encoder (Some x_) in
          reshape_to3 (n_latent self) (n_labels self) (transpose01 g)
     else gamma_at ind_x) in
  let* v_ind :=
    (if amortized_proportion (amortization self)
     then call_V_encoder (Some x_)
     else V_at ind_x) in
  let v_ind := map2d softplus v_ind in
  let gamma_ind := transpose20 gamma_ind in
  let* gamma_reshape := reshape_to2 (n_latent self) gamma_ind in
  let h := decoder_forward gamma_reshape (enum_label M) in
  let* px_rate := reshape_to3 M (n_labels self) (px_decoder_forward h) in
  let eps3 := {| dim0 := M; dim1 := 1; dim2 := n_genes self;
                 at3 := fun _ _ g => eps g |} in
  let scaled := {| dim0 := dim0 px_rate; dim1 := dim1 px_rate;
                   dim2 := dim2 px_rate;
                   at3 := fun m k g => beta_ g * at3 px_rate m k g |} in
  let r_hat := cat_dim1 scaled eps3 in
  let px_scale :=
    {| rows := dim0 r_hat; cols := dim2 r_hat;
       at2 := fun m g =>
         rsum (dim1 r_hat) (fun k => at2 v_ind m k * at3 r_hat m k g) |} in
  let px_rate :=
    {| rows := rows px_scale; cols := cols px_scale;
       at2 := fun m g => library m * at2 px_scale m g |} in
  ret {| out_px_o := px_o self; out_px_rate := px_rate;
         out_px_scale := px_scale; out_gamma := gamma_ind;
         out_v := v_ind |}.

(** The [LossRecorder] returned by [loss]. *)
Record LossRecorder := mkLoss
  { loss_total : R;
    reconstruction_loss : nat -> R;
    kl_local : nat -> R;
    kl_global : R }.

(** [-NegativeBinomial(px_rate, logits=px_o).log_prob(x).sum(-1)]. *)
Definition reconst_loss (x : Tensor2) (g : GenerativeOutputs) (m : nat) : R :=
  - rsum (cols x)
      (fun j => nb_log_prob (at2 (out_px_rate g) m j) (out_px_o g j)
                            (at2 x m j)).

(** [-Normal(0, 1).log_prob(self.eta).sum()]. *)
Definition glo_neg_log_likelihood_prior : R :=
  - rsum (n_genes self)
      (fun j => normal_log_prob 0 1 (data (eta self) j)).

(** The latent prior term, per spot; [gamma] has axes
    [minibatch, n_labels, n_latent]. *)
Definition neg_log_likelihood_prior (gamma : Tensor3) (m : nat) : R :=
  match vprior self with
  | None =>
    - rsum (dim1 gamma)
        (fun c => rsum (dim2 gamma)
           (fun l => normal_log_prob 0 1 (at3 gamma m c l)))
  | Some vp =>
    let pre_lse := fun k c =>
      rsum (dim2 gamma)
        (fun l => normal_log_prob (mean_vprior vp c k l)
                                  (sqrt (var_vprior vp c k l))
                                  (at3 gamma m c l)) in
    let log_likelihood_prior := fun c =>
      logsumexp (p vp) (fun k => pre_lse k c) - ln (INR (p vp)) in
    - rsum (dim1 gamma) log_likelihood_prior
  end.

(** [torch.mean] of a vector of length [n]. *)
Definition mean (n : nat) (f : nat -> R) : R := rsum n f / INR n.

Definition loss (x : Tensor2) (generative_outputs : GenerativeOutputs)
  (kl_weight n_obs : R) : LossRecorder :=
  let gamma := out_gamma generative_outputs in
  let rec := reconst_loss x generative_outputs in
  let prior := neg_log_likelihood_prior gamma in
  let total :=
    n_obs * mean (rows x) (fun m => rec m + kl_weight * prior m)
    + glo_neg_log_likelihood_prior in
  {| loss_total := total; reconstruction_loss := rec;
     kl_local := prior; kl_global := glo_neg_log_likelihood_prior |}.

Definition sample : Eff unit := raise NotImplementedError.

End Methods.

(** *** Construction *)

(** A [state_dict]: weights by parameter name. *)
Abbreviation state_dict := (gmap string wt) (only parsing).

(** A freshly built library module: every parameter tracks gradients. *)
Definition fresh (ws : list (string * wt)) : nn_Module :=
  map (fun kw => (fst kw, mkParam (snd kw) true)) ws.

(** [m.load_state_dict(sd)] (strict): the names must agree; the values are
    copied into the existing parameters, whose flags are kept. *)
Definition load_state_dict (m : nn_Module) (sd : state_dict) : Eff nn_Module :=
  if bool_decide (dom sd = list_to_set (map fst m))
  then ret (map (fun kp =>
                   (fst kp,
                    mkParam (default (data (snd kp)) (sd !! fst kp))
                            (requires_grad (snd kp)))) m)
  else raise RuntimeError.

(** [for param in m.parameters(): param.requires_grad = False]. *)
Definition disable_grad (m : nn_Module) : nn_Module :=
  map (fun kp => (fst kp, mkParam (data (snd kp)) false)) m.

(** What the constructor draws or builds afresh: the library modules as
    they come out of their own constructors, and the [torch.randn]
    draws. *)
Record Fresh := mkFresh
  { new_decoder : list (string * wt);
    new_px_decoder : list (string * wt);
    new_gamma_encoder : list (string * wt) * list (string * wt);
    new_V_encoder : list (string * wt);
    randn_V : nat -> nat -> R;
    randn_gamma : nat -> nat -> nat -> R;
    randn_eta : nat -> R;
    randn_beta : nat -> R }.

(** [HSTDeconv.__init__]; [sc_state_dict] is the frozen bundle (decoder
    weights, projection weights, dispersion), [mean_vprior] comes with its
    second dimension. *)
Definition init (rnd : Fresh) (n_spots n_labels : nat)
  (sc_state_dict : state_dict * state_dict * (nat -> R))
  (n_hidden n_latent n_genes : nat)
  (mean_vprior : option (nat * (nat -> nat -> nat -> R)))
  (var_vprior : option (nat -> nat -> nat -> R))
  (amortization : Amortization) : Eff HSTDeconv :=
  let '(sd0, sd1, sd2) := sc_state_dict in
  let decoder := fresh (new_decoder rnd) in
  let px_decoder := fresh (new_px_decoder rnd) in
  let* decoder := load_state_dict decoder sd0 in
  let decoder := disable_grad decoder in
  let* px_decoder := load_state_dict px_decoder sd1 in
  let px_decoder := disable_grad px_decoder in
  let V := mkParam (randn_V rnd) true in
  let gamma := mkParam (randn_gamma rnd) true in
  let* vprior :=
    match mean_vprior with
    | Some (p, mu) =>
      let* var := require RuntimeError var_vprior in
      ret (Some {| p := p; mean_vprior := mu; var_vprior := var |})
    | None => ret None
    end in
  let eta := mkParam (randn_eta rnd) true in
  let beta := mkParam (fun g => 0.01 * randn_beta rnd g) true in
  ret {| n_spots := n_spots; n_labels := n_labels; n_hidden := n_hidden;
         n_latent := n_latent; n_genes := n_genes;
         amortization := amortization;
         decoder := decoder; px_decoder := px_decoder; px_o := sd2;
         V := V; gamma := gamma; vprior := vprior; eta := eta; beta := beta;
         gamma_encoder := (fresh (fst (new_gamma_encoder rnd)),
                           fresh (snd (new_gamma_encoder rnd)));
         V_encoder := fresh (new_V_encoder rnd) |}.

(** *** The core operations as transitions of the module state *)

Inductive Op :=
| op_get_proportions (x : option Tensor2) (keep_noise : bool)
| op_get_gamma (x : option Tensor2)
| op_get_ct_specific_expression (x : option Tensor2)
    (ind_x y : option IndexTensor)
| op_inference
| op_generative (x : Tensor2) (ind_x : IndexTensor)
| op_loss (x : Tensor2) (generative_outputs : GenerativeOutputs)
    (kl_weight n_obs : R)
| op_sample.

Inductive Reply :=
| reply_tensor2 (r : Eff Tensor2)
| reply_tensor3 (r : Eff Tensor3)
| reply_unit (r : Eff unit)
| reply_generative (r : Eff GenerativeOutputs)
| reply_loss (r : LossRecorder).

(** Calling a method on [self]: the reply, and the module afterwards.  No
    method assigns to an attribute of [self] or writes a tensor in
    place. *)
Definition step (self : HSTDeconv) (o : Op) : HSTDeconv * Reply :=
  match o with
  | op_get_proportions x keep_noise =>
    (self, reply_tensor2 (get_proportions self x keep_noise))
  | op_get_gamma x => (self, reply_tensor3 (get_gamma self x))
  | op_get_ct_specific_expression x ind_x y =>
    (self, reply_tensor2 (get_ct_specific_expression self x ind_x y))
  | op_inference => (self, reply_unit inference)
  | op_generative x ind_x => (self, reply_generative (generative self x ind_x))
  | op_loss x g kl_weight n_obs => (self, reply_loss (loss self x g kl_weight n_obs))
  | op_sample => (self, reply_unit sample)
  end.

Definition run (self : HSTDeconv) (os : list Op) : HSTDeconv :=
  fold_left (fun s o => fst (step s o)) os self.

(** Every parameter of the frozen reference decoder has gradient tracking
    off. *)
Definition frozen (self : HSTDeconv) : Prop :=
  Forall (fun kp => requires_grad (snd kp) = false)
         (decoder self ++ px_decoder self).

(** ** The model [DestVI] *)

(** The data matrix of an [AnnData]: [n_obs] rows, [n_vars] columns. *)
Record AnnData := mkAnnData { X : Tensor2 }.

Record DestVI := mkDestVI
  { module : HSTDeconv;
    cell_type_mapping : list string;
    adata : AnnData }.

(** [DataLoader(TensorDataset(t), batch_size=128)]: consecutive blocks of
    128 rows, the last one shorter. *)
Definition DataLoader (t : Tensor2) : list Tensor2 :=
  map (fun k =>
         {| rows := Nat.min 128 (rows t - 128 * k); cols := cols t;
            at2 := fun i j => at2 t (128 * k + i)%nat j |})
      (seq 0 ((rows t + 127) / 128)).

(** [torch.cat(ts)]: an empty list and unequal widths are errors. *)
Fixpoint torch_cat (ts : list Tensor2) : Eff Tensor2 :=
  match ts with
  | [] => raise RuntimeError
  | [t] => ret t
  | t :: rest =>
    let* r := torch_cat rest in
    if (cols t =? cols r)%nat then ret (cat_rows t r) else raise RuntimeError
  end.

(** A [pandas.DataFrame]: values, column names, number of index labels. *)
Record DataFrame := mkDataFrame
  { df_data : Tensor2; df_columns : list string; df_index : nat }.

(** [pd.DataFrame(data=, columns=, index=)]: the shape of the values must
    be the one the labels imply. *)
Definition pd_DataFrame (data : Tensor2) (columns : list string)
  (index : nat) : Eff DataFrame :=
  if ((cols data =? length columns) && (rows data =? index))%nat
  then ret {| df_data := data; df_columns := columns; df_index := index |}
  else raise ValueError.

(** The loop [for tensors in dl: prop_ += [f(tensors[0])]]. *)
Fixpoint for_each {A B} (f : A -> Eff B) (l : list A) : Eff (list B) :=
  match l with
  | [] => ret []
  | a :: l =>
    let* b := f a in
    let* bs := for_each f l in
    ret (b :: bs)
  end.

Definition DestVI_get_proportions (m : DestVI) (dataset : option AnnData)
  (keep_noise : bool) : Eff DataFrame :=
  let column_names := cell_type_mapping m in
  let column_names :=
    if keep_noise then column_names ++ ["noise_term"%string]
    else column_names in
  let* data :=
    (if amortized_proportion (amortization (module m))
     then let* ds := require AttributeError dataset in
          let dl := DataLoader (X ds) in
          let* prop_ :=
            for_each (fun t => get_proportions (module m) (Some t) false)
                     dl in
          torch_cat prop_
     else get_proportions (module m) None keep_noise) in
  pd_DataFrame data column_names (rows (X (adata m))).

End Torch.

(** ** The hyperparameter search wrapper [Autotune] *)

Section AutotuneConfig.

(** Values of a configuration: search spaces or sampled values. *)
Context {Val : Type}.

Record Autotune := mkAutotune
  { model_hyperparams : option (gmap string Val);
    trainer_hyperparams : option (gmap string Val);
    plan_hyperparams : option (gmap string Val);
    config : gmap string Val }.

(** [config.update(d)]: the entries of [d] win. *)
Definition dict_update (config d : gmap string Val) : gmap string Val :=
  d ∪ config.

(** The merge in [Autotune.__init__]:
    [for d in [...]: if d is not None: self.config.update(d)]. *)
Definition merge_config (ds : list (option (gmap string Val)))
  : gmap string Val :=
  fold_left (fun cfg d => match d with
                          | Some d => dict_update cfg d
                          | None => cfg
                          end) ds ∅.

Definition Autotune_init (model_hyperparams trainer_hyperparams
  plan_hyperparams : option (gmap string Val)) : Autotune :=
  {| model_hyperparams := model_hyperparams;
     trainer_hyperparams := trainer_hyperparams;
     plan_hyperparams := plan_hyperparams;
     config := merge_config [model_hyperparams; trainer_hyperparams;
                             plan_hyperparams] |}.

(** [key in d]; membership in [None] is a type error. *)
Definition key_in (key : string) (d : option (gmap string Val))
  : exn + bool :=
  match d with
  | None => inl TypeError
  | Some d => inr (bool_decide (key ∈ dom d))
  end.

Definition Configs : Type :=
  (gmap string Val * gmap string Val * gmap string Val)%type.

(** One round of the loop
    [if key in d1: model_config[key] = config[key]
     elif key in d2: trainer_config[key] = config[key]
     elif key in d3: plan_config[key] = config[key]]
    where [d1], [d2], [d3] are the dictionaries the three tests read. *)
Definition route (d1 d2 d3 : option (gmap string Val))
  (key : string) (v : Val) (acc : exn + Configs) : exn + Configs :=
  match acc with
  | inl e => inl e
  | inr (model_config, trainer_config, plan_config) =>
    match key_in key d1 with
    | inl e => inl e
    | inr true => inr (<[key := v]> model_config, trainer_config, plan_config)
    | inr false =>
      match key_in key d2 with
      | inl e => inl e
      | inr true =>
        inr (model_config, <[key := v]> trainer_config, plan_config)
      | inr false =>
        match key_in key d3 with
        | inl e => inl e
        | inr true =>
          inr (model_config, trainer_config, <[key := v]> plan_config)
        | inr false => inr (model_config, trainer_config, plan_config)
        end
      end
    end
  end.

(** The split at the head of [_scvi_trainable]: the keyword arguments
    given to the model, to [train] and to the training plan.  All three
    tests read [self.trainer_hyperparams]. *)
Definition _scvi_trainable (self : Autotune) (config : gmap string Val)
  : exn + Configs :=
  map_fold (route (trainer_hyperparams self) (trainer_hyperparams self)
                  (trainer_hyperparams self))
           (inr (∅, ∅, ∅)) config.

(** The split in [run], on the best trial's configuration; the same three
    tests. *)
Definition run_best_configs (self : Autotune) (best_config : gmap string Val)
  : exn + Configs :=
  map_fold (route (trainer_hyperparams self) (trainer_hyperparams self)
                  (trainer_hyperparams self))
           (inr (∅, ∅, ∅)) best_config.

End AutotuneConfig.

Arguments Autotune : clear implicits.

Arguments n_spots {wt} _.
Arguments n_labels {wt} _.
Arguments n_hidden {wt} _.
Arguments n_latent {wt} _.
Arguments n_genes {wt} _.
Arguments amortization {wt} _.
Arguments decoder {wt} _.
Arguments px_decoder {wt} _.
Arguments px_o {wt} _.
Arguments V {wt} _.
Arguments gamma {wt} _.
Arguments vprior {wt} _.
Arguments eta {wt} _.
Arguments beta {wt} _.
Arguments gamma_encoder {wt} _.
Arguments V_encoder {wt} _.
Arguments loss {wt} nb_log_prob self x generative_outputs kl_weight n_obs.
Arguments neg_log_likelihood_prior {wt} self gamma m.
Arguments glo_neg_log_likelihood_prior {wt} self.
Arguments frozen {wt} self.
Arguments new_decoder {wt} _.
Arguments new_px_decoder {wt} _.
Arguments run {softplus wt} FCLayers_forward Linear_forward nb_log_prob self os.
Arguments module {wt} _.
Arguments cell_type_mapping {wt} _.
Arguments adata {wt} _.

(** The module with another prior bank. *)
Definition set_vprior {wt} (self : HSTDeconv wt) (v : option VampPrior)
  : HSTDeconv wt :=
  {| n_spots := n_spots self; n_labels := n_labels self;
     n_hidden := n_hidden self; n_latent := n_latent self;
     n_genes := n_genes self; amortization := amortization self;
     decoder := decoder self; px_decoder := px_decoder self;
     px_o := px_o self; V := V self; gamma := gamma self;
     vprior := v; eta := eta self; beta := beta self;
     gamma_encoder := gamma_encoder self; V_encoder := V_encoder self |}.

(** ** Vocabulary of the statements *)

Section Vocabulary.

Variable wt : Type.
Variable FCLayers_forward :
  list wt -> Tensor2 -> list IndexTensor -> nat -> nat -> R.
Variable Linear_forward : list wt -> Tensor2 -> nat -> nat -> R.
Variable self : HSTDeconv wt.

(** The unactivated loading of spot [m] for component [k] that
    [generative] reads: the loading encoder's output on [log1p x] when
    loadings are amortized, the stored matrix at the spot's index
    otherwise. *)
Definition loading_of (x : Tensor2) (ind_x : IndexTensor) (m k : nat) : R :=
  if amortized_proportion (amortization self)
  then FCLayers_forward (weights wt (V_encoder self)) (log1p x) [] m k
  else data (V self) k (idx ind_x m).

(** The latent code of spot [m] for cell type [c], coordinate [l]: entry
    [l * n_labels + c] of the latent encoder's output row when the code is
    amortized, the stored tensor at the spot's index otherwise. *)
Definition code_of (x : Tensor2) (ind_x : IndexTensor) (l c m : nat) : R :=
  if amortized_latent (amortization self)
  then Linear_forward (weights wt (snd (gamma_encoder self)))
         {| rows := rows (log1p x); cols := n_hidden self;
            at2 := FCLayers_forward
                     (weights wt (fst (gamma_encoder self))) (log1p x) [] |}
         m (l * n_labels self + c)%nat
  else data (gamma self) l c (idx ind_x m).

End Vocabulary.

Section AccessorVocabulary.

Variable softplus : R -> R.
Variable wt : Type.
Variable FCLayers_forward :
  list wt -> Tensor2 -> list IndexTensor -> nat -> nat -> R.
Variable self : HSTDeconv wt.

(** The unactivated loading of row [i] for component [j] that
    [get_proportions] reads: the loading encoder's output on the argument
    [x] itself when loadings are amortized, the stored matrix otherwise. *)
Definition accessor_loading (x : option Tensor2) (i j : nat) : R :=
  if amortized_proportion (amortization self)
  then match x with
       | Some x => FCLayers_forward (weights wt (V_encoder self)) x [] i j
       | None => 0
       end
  else data (V self) j i.

(** The activated loadings [get_proportions] keeps, before it divides:
    one row per row of [x] (amortized) or per spot, and [n_labels + 1]
    columns with the noise column, [n_labels] without. *)
Definition retained_loadings (x : option Tensor2) (keep_noise : bool)
  : Tensor2 :=
  {| rows := if amortized_proportion (amortization self)
             then match x with Some x => rows x | None => 0%nat end
             else n_spots self;
     cols := if keep_noise then (n_labels self + 1)%nat else n_labels self;
     at2 := fun i j => softplus (accessor_loading x i j) |}.

End AccessorVocabulary.

(** ** Small instances *)

(** Library layers whose output is zero everywhere, and a constant
    density. *)
Definition zero_layers (ws : list unit) (x : Tensor2)
  (cats : list IndexTensor) (i j : nat) : R := 0.
Definition zero_linear (ws : list unit) (x : Tensor2) (i j : nat) : R := 0.
Definition zero_density (mu o x : R) : R := 0.

(** Two spots, two cell types, one latent coordinate, two genes; every
    stored parameter is zero. *)
Definition toy_module (a : Amortization) : HSTDeconv unit :=
  {| n_spots := 2; n_labels := 2; n_hidden := 1; n_latent := 1; n_genes := 2;
     amortization := a;
     decoder := [("w"%string, mkParam tt false)];
     px_decoder := [("w"%string, mkParam tt false)];
     px_o := fun _ => 0;
     V := mkParam (fun _ _ => 0) true;
     gamma := mkParam (fun _ _ _ => 0) true;
     vprior := None;
     eta := mkParam (fun _ => 0) true;
     beta := mkParam (fun _ => 0) true;
     gamma_encoder := ([], []);
     V_encoder := [] |}.

(** One spot with count 1 for each of the two genes. *)
Definition toy_counts : Tensor2 :=
  {| rows := 1; cols := 2; at2 := fun _ _ => 1 |}.

Definition toy_ind_x : IndexTensor := {| len := 1; idx := fun _ => 0%nat |}.


(** A bank of five pseudo-points with mean 0 and variance 1. *)
Definition standard_bank : VampPrior :=
  {| p := 5; mean_vprior := fun _ _ _ => 0; var_vprior := fun _ _ _ => 1 |}.

(** A latent code of shape [1, 2, 1]. *)
Definition toy_gamma : Tensor3 :=
  {| dim0 := 1; dim1 := 2; dim2 := 1; at3 := fun _ _ _ => 1 |}.

(** A model around [toy_module] with two named cell types, registered on
    a dataset of two spots. *)
Definition toy_model (a : Amortization) : DestVI unit :=
  {| module := toy_module a;
     cell_type_mapping := ["B"%string; "T"%string];
     adata := {| X := {| rows := 2; cols := 2; at2 := fun _ _ => 1 |} |} |}.

(** A frozen bundle and fresh modules with one weight each. *)
Definition toy_bundle : gmap string unit * gmap string unit * (nat -> R) :=
  ({["w"%string := tt]}, {["w"%string := tt]}, fun _ => 0).

Definition toy_fresh : Fresh unit :=
  {| new_decoder := [("w"%string, tt)];
     new_px_decoder := [("w"%string, tt)];
     new_gamma_encoder := ([], []);
     new_V_encoder := [];
     randn_V := fun _ _ => 0;
     randn_gamma := fun _ _ _ => 0;
     randn_eta := fun _ => 0;
     randn_beta := fun _ => 0 |}.

(** The tuner of the repository's test: one model hyperparameter, one
    plan hyperparameter, no trainer hyperparameter (values stand for the
    search spaces). *)
Definition test_tuner : Autotune nat :=
  Autotune_init (Some {["dropout_rate"%string := 1%nat]}) (Some ∅)
                (Some {["lr"%string := 2%nat]}).

(** ** The model accessor for the latent codes *)

(** [torch.cat([a, b], dim=-1)] on three-axis tensors. *)
Definition cat_dim2 (a b : Tensor3) : Tensor3 :=
  {| dim0 := dim0 a; dim1 := dim1 a; dim2 := (dim2 a + dim2 b)%nat;
     at3 := fun i j k => if (k <? dim2 a)%nat then at3 a i j k
                         else at3 b i j (k - dim2 a)%nat |}.

(** [torch.cat(ts, dim=-1)]: an empty list and unequal leading shapes are
    errors. *)
Fixpoint torch_cat_last (ts : list Tensor3) : Eff Tensor3 :=
  match ts with
  | [] => raise RuntimeError
  | [t] => ret t
  | t :: rest =>
    let* r := torch_cat_last rest in
    if ((dim0 t =? dim0 r) && (dim1 t =? dim1 r))%nat
    then ret (cat_dim2 t r) else raise RuntimeError
  end.

(** [np.transpose(data, (2, 0, 1))]. *)
Definition np_transpose_201 (t : Tensor3) : Tensor3 :=
  {| dim0 := dim2 t; dim1 := dim0 t; dim2 := dim1 t;
     at3 := fun i j k => at3 t j k i |}.

Section ModelAccessors.

Variable wt : Type.
Variable FCLayers_forward :
  list wt -> Tensor2 -> list IndexTensor -> nat -> nat -> R.
Variable Linear_forward : list wt -> Tensor2 -> nat -> nat -> R.

(** [DestVI.get_gamma]. *)
Definition DestVI_get_gamma (m : DestVI wt) (dataset : option AnnData)
  : Eff Tensor3 :=
  let* data :=
    (if amortized_latent (amortization (module m))
     then let* ds := require AttributeError dataset in
          let dl := DataLoader (X ds) in
          let* gamma_ :=
            for_each (fun t => get_gamma wt FCLayers_forward Linear_forward
                                         (module m) (Some t))
                     dl in
          torch_cat_last gamma_
     else get_gamma wt FCLayers_forward Linear_forward (module m) None) in
  ret (np_transpose_201 data).

End ModelAccessors.

(** ** Construction of the model and its minibatches *)

Section ModelConstruction.

Variable wt : Type.

(** [DestVI.__init__]: the module is built for the registered dataset's
    number of spots and genes and for as many cell types as the mapping
    names ([n_layers] only shapes the fresh decoder, which is part of
    [rnd]). *)
Definition DestVI_init (rnd : Fresh wt) (st_adata : AnnData)
  (cell_type_mapping : list string)
  (sc_state_dict : gmap string wt * gmap string wt * (nat -> R))
  (n_latent n_hidden : nat)
  (mean_vprior : option (nat * (nat -> nat -> nat -> R)))
  (var_vprior : option (nat -> nat -> nat -> R))
  (amortization : Amortization) : Eff (DestVI wt) :=
  let* module :=
    init wt rnd (rows (X st_adata)) (length cell_type_mapping) sc_state_dict
         n_hidden n_latent (cols (X st_adata)) mean_vprior var_vprior
         amortization in
  ret {| module := module; cell_type_mapping := cell_type_mapping;
         adata := st_adata |}.

End ModelConstruction.

(** [st_adata.obs["_indices"] = np.arange(st_adata.n_obs)], registered as
    [ind_x]. *)
Definition registered_ind_x (st_adata : AnnData) : IndexTensor :=
  {| len := rows (X st_adata); idx := fun i => i |}.

(** The tensors a data loader hands over for the rows [sel] of the
    registered dataset, as [_get_generative_input] reads them: the counts
    and the registered indices of those rows. *)
Definition minibatch (st_adata : AnnData) (sel : list nat)
  : Tensor2 * IndexTensor :=
  ({| rows := length sel; cols := cols (X st_adata);
      at2 := fun i j => at2 (X st_adata) (nth i sel 0%nat) j |},
   {| len := length sel;
      idx := fun i => idx (registered_ind_x st_adata) (nth i sel 0%nat) |}).

Section EncodedCode.

Variable wt : Type.
Variable FCLayers_forward :
  list wt -> Tensor2 -> list IndexTensor -> nat -> nat -> R.
Variable Linear_forward : list wt -> Tensor2 -> nat -> nat -> R.
Variable self : HSTDeconv wt.

(** The output of the latent encoder on [x], of shape
    [[batch, n_latent * n_labels]]. *)
Definition encoder_code (x : Tensor2) : Tensor2 :=
  {| rows := rows x; cols := (n_latent self * n_labels self)%nat;
     at2 := Linear_forward (weights wt (snd (gamma_encoder self)))
              {| rows := rows x; cols := n_hidden self;
                 at2 := FCLayers_forward
                          (weights wt (fst (gamma_encoder self))) x [] |} |}.

(** Its transpose read as [[n_latent, n_labels, batch]]. *)
Definition reshaped_code (x : Tensor2) : Tensor3 :=
  {| dim0 := n_latent self; dim1 := n_labels self; dim2 := rows x;
     at3 := fun i j k =>
       flat2 (transpose01 (encoder_code x))
             ((i * n_labels self + j) * rows x + k)%nat |}.

End EncodedCode.

(** A label, and a spot index and a label that are out of range for
    [toy_module]. *)
Definition toy_labels : IndexTensor := {| len := 1; idx := fun _ => 1%nat |}.
Definition far_ind_x : IndexTensor := {| len := 1; idx := fun _ => 5%nat |}.
Definition far_labels : IndexTensor := {| len := 1; idx := fun _ => 7%nat |}.

(** A bank with a single pseudo-point. *)
Definition one_point_bank : VampPrior :=
  {| p := 1; mean_vprior := fun _ _ _ => 2; var_vprior := fun _ _ _ => 4 |}.

(** A tuner built without trainer hyperparameters. *)
Definition none_tuner : Autotune nat :=
  Autotune_init (Some {["dropout_rate"%string := 1%nat]}) None None.

(** A parameter as the constructor must leave it in the reference
    decoder: the name of the fresh parameter [kw], the value the state
    dict [sd] holds under that name, gradient tracking off. *)
Definition loaded_and_frozen {wt : Type} (sd : gmap string wt)
  (kw : string * wt) (kp : string * TorchParameter wt) : Prop :=
  fst kp = fst kw
  /\ sd !! fst kw = Some (data (snd kp))
  /\ requires_grad (snd kp) = false.

(** * Properties *)

(** ** Sums *)

Lemma rsum_ext (n : nat) (f g : nat -> R) :
  (forall i, (i < n)%nat -> f i = g i) -> rsum n f = rsum n g.
Proof.
  induction n as [|n IH]; intros H; simpl; [reflexivity|].
  rewrite IH by (intros i Hi; apply H; lia).
  rewrite (H n) by lia. reflexivity.
Qed.

Lemma rsum_const (n : nat) (c : R) : rsum n (fun _ => c) = INR n * c.
Proof.
  induction n as [|n IH]; [simpl; lra|].
  rewrite S_INR. simpl rsum. rewrite IH. lra.
Qed.

Lemma rsum_scal_r (n : nat) (f : nat -> R) (c : R) :
  rsum n (fun i => f i * c) = rsum n f * c.
Proof.
  induction n as [|n IH]; simpl; [lra|]. rewrite IH. lra.
Qed.

Lemma rsum_opp (n : nat) (f : nat -> R) :
  rsum n (fun i => - f i) = - rsum n f.
Proof.
  induction n as [|n IH]; simpl; [lra|]. rewrite IH. lra.
Qed.

Lemma rsum_pos (n : nat) (f : nat -> R) :
  (0 < n)%nat -> (forall i, (i < n)%nat -> 0 < f i) -> 0 < rsum n f.
Proof.
  induction n as [|n IH]; intros Hn H; [lia|].
  simpl. destruct n as [|n].
  - simpl. specialize (H 0%nat ltac:(lia)). lra.
  - assert (0 < rsum (S n) f) by (apply IH; [lia | intros; apply H; lia]).
    specialize (H (S n) ltac:(lia)). lra.
Qed.

(** ** The loss *)

Lemma standard_normal_log_prob (v : R) :
  - normal_log_prob 0 1 v = v ^ 2 / 2 + ln (sqrt (2 * PI)).
Proof.
  unfold normal_log_prob. rewrite ln_1. field.
Qed.

(** C1. The total returned by [loss] is [n_obs] times the minibatch mean
    of (reconstruction term + [kl_weight] times latent prior term), plus the
    hyperprior term, which is the negative standard normal log density of
    [eta] summed over genes: one scalar, added once, carrying no factor
    [n_obs] and no division by the minibatch size. *)
Theorem loss_total_is_scaled_mean_plus_hyperprior
  {wt : Type} (nb_log_prob : R -> R -> R -> R) (self : HSTDeconv wt)
  (x : Tensor2) (g : GenerativeOutputs) (kl_weight n_obs : R) :
  let L := loss nb_log_prob self x g kl_weight n_obs in
  let hyperprior :=
    rsum (n_genes self)
      (fun j => data (eta self) j ^ 2 / 2 + ln (sqrt (2 * PI))) in
  loss_total L
  = n_obs * (rsum (rows x)
               (fun m => reconstruction_loss L m + kl_weight * kl_local L m)
             / INR (rows x))
    + hyperprior
  /\ kl_global L = hyperprior
  /\ (forall m, reconstruction_loss L m = reconst_loss nb_log_prob x g m)
  /\ (forall m, kl_local L m = neg_log_likelihood_prior self (out_gamma g) m).
Proof.
  cbv zeta.
  assert (Hglo : glo_neg_log_likelihood_prior self
                 = rsum (n_genes self)
                     (fun j => data (eta self) j ^ 2 / 2
                               + ln (sqrt (2 * PI)))).
  { unfold glo_neg_log_likelihood_prior. rewrite <- rsum_opp.
    apply rsum_ext. intros j _. apply standard_normal_log_prob. }
  unfold loss, mean.
  cbn [loss_total kl_global reconstruction_loss kl_local].
  rewrite Hglo. repeat split; reflexivity.
Qed.

Lemma logsumexp_const (n : nat) (a : R) :
  (0 < n)%nat -> logsumexp n (fun _ => a) = ln (INR n) + a.
Proof.
  intros Hn. unfold logsumexp. rewrite rsum_const.
  rewrite ln_mult.
  - rewrite ln_exp. reflexivity.
  - apply lt_0_INR. lia.
  - apply exp_pos.
Qed.

Lemma logsumexp_ext (n : nat) (f g : nat -> R) :
  (forall k, (k < n)%nat -> f k = g k) -> logsumexp n f = logsumexp n g.
Proof.
  intros H. unfold logsumexp. f_equal. apply rsum_ext.
  intros k Hk. rewrite H by exact Hk. reflexivity.
Qed.

(** C7. With a bank of [p >= 1] pseudo-points that all have mean 0 and
    variance 1, the latent prior term of the VAMP branch equals the term of
    the standard normal branch, for every latent code and every spot. *)
Theorem vamp_standard_bank_is_isotropic
  {wt : Type} (self : HSTDeconv wt) (bank : VampPrior) (gamma : Tensor3)
  (m : nat) :
  (0 < p bank)%nat ->
  (forall c k l, (c < dim1 gamma)%nat -> (k < p bank)%nat ->
                 (l < dim2 gamma)%nat ->
                 mean_vprior bank c k l = 0 /\ var_vprior bank c k l = 1) ->
  neg_log_likelihood_prior (set_vprior self (Some bank)) gamma m
  = neg_log_likelihood_prior (set_vprior self None) gamma m.
Proof.
  intros Hp Hbank. unfold neg_log_likelihood_prior; simpl.
  f_equal. apply rsum_ext. intros c Hc.
  rewrite (logsumexp_ext _ _
             (fun _ => rsum (dim2 gamma)
                         (fun l => normal_log_prob 0 1 (at3 gamma m c l)))).
  - rewrite logsumexp_const by exact Hp. lra.
  - intros k Hk. apply rsum_ext. intros l Hl.
    destruct (Hbank c k l Hc Hk Hl) as [-> ->].
    rewrite sqrt_1. reflexivity.
Qed.

(** ** Computations that log and raise *)

Lemma bind_ret_l {A B} (a : A) (f : A -> Eff B) : bind (ret a) f = f a.
Proof. unfold bind, ret. destruct (f a) as [t r]. reflexivity. Qed.


Lemma infer_dim_exact (k n : nat) :
  (0 < k)%nat -> infer_dim (k * n) k = ret n.
Proof.
  intros Hk. unfold infer_dim.
  destruct (Nat.eqb_spec k 0) as [->|_]; [lia|].
  rewrite (Nat.mul_comm k n), Nat.Div0.mod_mul, Nat.eqb_refl.
  rewrite Nat.div_mul by lia. reflexivity.
Qed.

Lemma check_index_ok (n : nat) (ix : IndexTensor) :
  (forall m, (m < len ix)%nat -> (idx ix m < n)%nat) ->
  check_index n ix = ret tt.
Proof.
  intros H. unfold check_index.
  replace (forallb _ _) with true; [reflexivity|].
  symmetry. apply forallb_forall. intros m Hm.
  apply in_seq in Hm. apply Nat.ltb_lt. apply H. lia.
Qed.

(** ** Row-major index arithmetic *)

Lemma div_lin (a b r : nat) : (r < b)%nat -> ((a * b + r) / b = a)%nat.
Proof.
  intros Hr. rewrite Nat.div_add_l by lia.
  rewrite Nat.div_small by exact Hr. lia.
Qed.

Lemma mod_lin (a b r : nat) : (r < b)%nat -> ((a * b + r) mod b = r)%nat.
Proof.
  intros Hr. rewrite Nat.add_comm, Nat.Div0.mod_add.
  apply Nat.mod_small. exact Hr.
Qed.

Lemma flat2_at (t : Tensor2) (i j : nat) :
  (j < cols t)%nat -> flat2 t (i * cols t + j) = at2 t i j.
Proof.
  intros Hj. unfold flat2. rewrite div_lin, mod_lin by exact Hj. reflexivity.
Qed.

Lemma flat3_at (t : Tensor3) (i j k : nat) :
  (j < dim1 t)%nat -> (k < dim2 t)%nat ->
  flat3 t ((i * dim1 t + j) * dim2 t + k) = at3 t i j k.
Proof.
  intros Hj Hk. unfold flat3.
  rewrite mod_lin, div_lin by exact Hk.
  rewrite mod_lin by exact Hj.
  replace ((i * dim1 t + j) * dim2 t + k)%nat
    with (i * (dim1 t * dim2 t) + (j * dim2 t + k))%nat by lia.
  rewrite div_lin by nia. reflexivity.
Qed.

Lemma rsum_snoc (n : nat) (f : nat -> R) :
  rsum (n + 1) f = rsum n f + f n.
Proof. rewrite Nat.add_1_r. reflexivity. Qed.

Lemma outcome_bind {A B} (m : Eff A) (f : A -> Eff B) :
  outcome (bind m f)
  = match outcome m with inl e => inl e | inr a => outcome (f a) end.
Proof.
  destruct m as [t [e|a]]; unfold outcome; simpl; [reflexivity|].
  destruct (f a) as [t' r]. reflexivity.
Qed.

Lemma trace_bind {A B} (m : Eff A) (f : A -> Eff B) :
  trace (bind m f)
  = match outcome m with inl e => trace m | inr a => trace m ++ trace (f a) end.
Proof.
  destruct m as [t [e|a]]; unfold outcome, trace; simpl; [reflexivity|].
  destruct (f a) as [t' r]. reflexivity.
Qed.

Lemma reshape_to3_exact (d0 d1 d2 : nat) (t : Tensor2) :
  (0 < d0 * d1)%nat -> numel2 t = (d0 * d1 * d2)%nat ->
  reshape_to3 d0 d1 t
  = ret {| dim0 := d0; dim1 := d1; dim2 := d2;
           at3 := fun i j k => flat2 t ((i * d1 + j) * d2 + k)%nat |}.
Proof.
  intros Hk Hn. unfold reshape_to3. rewrite Hn, infer_dim_exact by exact Hk.
  rewrite bind_ret_l. reflexivity.
Qed.

Lemma reshape_to2_exact (r c : nat) (t : Tensor3) :
  (0 < c)%nat -> numel3 t = (c * r)%nat ->
  reshape_to2 c t
  = ret {| rows := r; cols := c;
           at2 := fun i j => flat3 t (i * c + j)%nat |}.
Proof.
  intros Hc Hn. unfold reshape_to2. rewrite Hn, infer_dim_exact by exact Hc.
  rewrite bind_ret_l. reflexivity.
Qed.

(** ** The generative step *)

Section Generative.
Variable softplus : R -> R.
Variable wt : Type.
Variable FCLayers_forward :
  list wt -> Tensor2 -> list IndexTensor -> nat -> nat -> R.
Variable Linear_forward : list wt -> Tensor2 -> nat -> nat -> R.
Variable self : HSTDeconv wt.
Variables (x : Tensor2) (ind_x : IndexTensor).
Hypothesis Hlat : (0 < n_latent self)%nat.
Hypothesis Hlab : (0 < n_labels self)%nat.
Hypothesis HM : (0 < rows x)%nat.
Hypothesis Hlen : len ind_x = rows x.
Hypothesis Hidx : forall m, (m < len ind_x)%nat -> (idx ind_x m < n_spots self)%nat.

Lemma fetch_gamma :
  exists G,
    outcome (if amortized_latent (amortization self)
     then let* g := call_gamma_encoder wt FCLayers_forward Linear_forward self (Some (log1p x)) in
          reshape_to3 (n_latent self) (n_labels self) (transpose01 g)
     else gamma_at wt self ind_x) = inr G
    /\ dim0 G = n_latent self /\ dim1 G = n_labels self /\ dim2 G = rows x
    /\ forall l c m, (c < n_labels self)%nat -> (m < rows x)%nat ->
         at3 G l c m = code_of wt FCLayers_forward Linear_forward self x ind_x l c m.
Proof.
  unfold code_of. destruct (amortized_latent (amortization self)).
  - unfold call_gamma_encoder.
    rewrite outcome_bind, outcome_bind. cbn [outcome log_call snd ret].
    rewrite (reshape_to3_exact _ _ (rows x)).
    + eexists. split; [reflexivity|]. cbn [dim0 dim1 dim2 at3].
      repeat split. intros l c m Hc Hm.
      change (rows x) with (cols (transpose01 {| rows := rows (log1p x); cols := (n_latent self * n_labels self)%nat; at2 := Linear_forward (weights wt (snd (gamma_encoder self)))
         {| rows := rows (log1p x); cols := n_hidden self;
            at2 := FCLayers_forward
                     (weights wt (fst (gamma_encoder self))) (log1p x) [] |} |})) at 1.
      rewrite flat2_at by (cbn; exact Hm). reflexivity.
    + nia.
    + unfold numel2; cbn. lia.
  - unfold gamma_at. rewrite (check_index_ok _ _ Hidx), bind_ret_l.
    eexists. split; [reflexivity|]. cbn. rewrite Hlen. repeat split.
Qed.

Lemma fetch_v :
  exists v,
    outcome (if amortized_proportion (amortization self)
     then call_V_encoder wt FCLayers_forward self (Some (log1p x))
     else V_at wt self ind_x) = inr v
    /\ rows v = rows x /\ cols v = (n_labels self + 1)%nat
    /\ forall m k, at2 v m k = loading_of wt FCLayers_forward self x ind_x m k.
Proof.
  unfold loading_of. destruct (amortized_proportion (amortization self)).
  - unfold call_V_encoder. rewrite outcome_bind. cbn [outcome log_call snd ret].
    eexists. split; [reflexivity|]. cbn. repeat split.
  - unfold V_at. rewrite (check_index_ok _ _ Hidx), bind_ret_l.
    eexists. split; [reflexivity|]. cbn. rewrite Hlen. repeat split.
Qed.

(** C2. On a minibatch, [generative] returns, for spot [m] and gene [g],
    the rate
    [library m * (sum over k < n_labels of
                    softplus (v m k) * softplus (beta g) * profile m k g
                  + softplus (v m n_labels) * softplus (eta g))]
    where [library m] is the row sum of the raw counts, [v] the loadings
    the mode selects, and [profile m k] the projection of the decoder's
    output on the latent code of spot [m] for cell type [k] with label
    [k]: the last of the [n_labels + 1] components is the noise profile. *)
Theorem generative_rate_is_library_times_mixture :
  exists out codes,
    outcome (generative softplus wt FCLayers_forward Linear_forward self x ind_x)
    = inr out
    /\ rows (out_px_rate out) = rows x
    /\ cols (out_px_rate out) = n_genes self
    /\ rows codes = (rows x * n_labels self)%nat
    /\ cols codes = n_latent self
    /\ (forall m c l,
          (m < rows x)%nat -> (c < n_labels self)%nat ->
          (l < n_latent self)%nat ->
          at2 codes (m * n_labels self + c) l
          = code_of wt FCLayers_forward Linear_forward self x ind_x l c m
          /\ idx (enum_label wt self (rows x)) (m * n_labels self + c) = c)
    /\ forall m g,
         (m < rows x)%nat -> (g < n_genes self)%nat ->
         at2 (out_px_rate out) m g
         = rsum (cols x) (at2 x m)
           * (rsum (n_labels self)
                (fun k =>
                   softplus (loading_of wt FCLayers_forward self x ind_x m k)
                   * (softplus (data (beta self) g)
                      * at2 (px_decoder_forward softplus wt Linear_forward self
                               (decoder_forward wt FCLayers_forward self codes
                                  (enum_label wt self (rows x))))
                            (m * n_labels self + k) g))
              + softplus (loading_of wt FCLayers_forward self x ind_x m
                            (n_labels self))
                * softplus (data (eta self) g)).
Proof.
  destruct fetch_gamma as (G & HG & HG0 & HG1 & HG2 & HGat).
  destruct fetch_v as (v & Hv & Hvr & Hvc & Hvat).
  unfold generative. cbv zeta.
  rewrite outcome_bind, HG, outcome_bind, Hv.
  rewrite (reshape_to2_exact (rows x * n_labels self));
    [|exact Hlat|unfold numel3; cbn; rewrite HG0, HG1, HG2; lia].
  rewrite bind_ret_l.
  rewrite (reshape_to3_exact _ _ (n_genes self));
    [|nia|unfold numel2; cbn; lia].
  rewrite bind_ret_l. cbn [outcome ret snd].
  eexists.
  exists {| rows := (rows x * n_labels self)%nat; cols := n_latent self;
            at2 := fun i j =>
              flat3 (transpose20 G) (i * n_latent self + j)%nat |}.
  split; [reflexivity|].
  cbn [out_px_rate rows cols dim0 dim1 dim2 cat_dim1 at2 at3].
  do 4 (split; [reflexivity|]). split.
  - intros m c l Hm Hc Hl. split.
    + rewrite <- HG0.
      change (dim0 G) with (dim2 (transpose20 G)).
      replace (m * n_labels self + c)%nat
        with (m * dim1 (transpose20 G) + c)%nat
        by (cbn; rewrite HG1; reflexivity).
      rewrite flat3_at by (cbn; lia). cbn. apply HGat; assumption.
    + cbn. apply mod_lin. exact Hc.
  - intros m g Hm Hg. f_equal.
    rewrite rsum_snoc. f_equal.
    + apply rsum_ext. intros k Hk.
      destruct (Nat.ltb_spec k (n_labels self)) as [_|?]; [|lia].
      cbn [map2d at2]. rewrite Hvat. f_equal. f_equal.
      change (n_genes self) with (cols (px_decoder_forward softplus wt Linear_forward self
       (decoder_forward wt FCLayers_forward self
          {|
            rows := rows x * n_labels self;
            cols := n_latent self;
            at2 := λ i j : nat, flat3 (transpose20 G) (i * n_latent self + j)
          |} (enum_label wt self (rows x))))) at 1.
      rewrite flat2_at by (cbn; exact Hg). reflexivity.
    + rewrite Nat.ltb_irrefl. cbn [map2d at2]. rewrite Hvat. reflexivity.
Qed.
End Generative.

(** ** The proportions accessor *)

Lemma softplus_real_pos (t : R) : 0 < softplus_real t.
Proof.
  unfold softplus_real. destruct (Rlt_dec 20 t) as [H|_]; [lra|].
  rewrite <- ln_1. apply ln_increasing; [lra|].
  pose proof (exp_pos t). lra.
Qed.

Lemma rsum_div (n : nat) (f : nat -> R) (c : R) :
  rsum n (fun i => f i / c) = rsum n f / c.
Proof. unfold Rdiv. apply rsum_scal_r. Qed.

Lemma row_sum_normalize_rows (t : Tensor2) (i : nat) :
  row_sum t i <> 0 -> row_sum (normalize_rows t) i = 1.
Proof.
  intros H. unfold row_sum at 1. cbn [normalize_rows cols at2].
  rewrite rsum_div. fold (row_sum t i). field. exact H.
Qed.

Section Proportions.

Variable softplus : R -> R.
Variable wt : Type.
Variable FCLayers_forward :
  list wt -> Tensor2 -> list IndexTensor -> nat -> nat -> R.
Variable self : HSTDeconv wt.

(** Whenever the argument the mode needs is there, [get_proportions]
    returns the retained loadings divided by their row sums. *)
Lemma get_proportions_outcome (x : option Tensor2) (keep_noise : bool) :
  (amortized_proportion (amortization self) = true -> x <> None) ->
  outcome (get_proportions softplus wt FCLayers_forward self x keep_noise)
  = inr (normalize_rows
           (retained_loadings softplus wt FCLayers_forward self x
                              keep_noise)).
Proof.
  intros Hx. unfold get_proportions, retained_loadings, accessor_loading.
  destruct (amortized_proportion (amortization self)).
  - destruct x as [x|]; [|exfalso; apply Hx; reflexivity].
    unfold call_V_encoder. rewrite !outcome_bind.
    cbn [outcome log_call ret snd].
    destruct keep_noise; cbn [negb]; [reflexivity|].
    unfold drop_last_col, map2d. cbn [rows cols at2].
    rewrite Nat.add_sub. reflexivity.
  - rewrite bind_ret_l. cbn [outcome ret snd].
    destruct keep_noise; cbn [negb]; [reflexivity|].
    unfold drop_last_col, map2d, transpose01, V_tensor. cbn [rows cols at2].
    rewrite Nat.add_sub. reflexivity.
Qed.

Lemma retained_row_sum_pos (x : option Tensor2) (keep_noise : bool) (i : nat) :
  (forall t, 0 < softplus t) ->
  keep_noise = true \/ (0 < n_labels self)%nat ->
  0 < row_sum (retained_loadings softplus wt FCLayers_forward self x
                                 keep_noise) i.
Proof.
  intros Hpos Hcol. unfold row_sum. apply rsum_pos.
  - cbn [retained_loadings cols]. destruct keep_noise; [lia|].
    destruct Hcol as [H|H]; [discriminate|exact H].
  - intros j _. cbn [retained_loadings at2]. apply Hpos.
Qed.

End Proportions.

(** C4. In every mode, with at least one cell type and the argument the
    mode needs, [get_proportions] without the noise column returns a matrix
    with [n_labels] columns, non-negative entries and rows that sum
    to 1. *)
Theorem proportions_rows_sum_to_one
  {wt : Type}
  (FCLayers_forward : list wt -> Tensor2 -> list IndexTensor -> nat -> nat -> R)
  (self : HSTDeconv wt) (x : option Tensor2) :
  (0 < n_labels self)%nat ->
  (amortized_proportion (amortization self) = true -> x <> None) ->
  exists res,
    outcome (get_proportions softplus_real wt FCLayers_forward self x false)
    = inr res
    /\ cols res = n_labels self
    /\ (forall i j, 0 <= at2 res i j)
    /\ (forall i, row_sum res i = 1).
Proof.
  intros Hlab Hx. eexists. split; [apply get_proportions_outcome, Hx|].
  pose proof (fun i => retained_row_sum_pos softplus_real wt FCLayers_forward
                         self x false i softplus_real_pos (or_intror Hlab))
    as Hsum.
  split; [reflexivity|]. split.
  - intros i j. cbn [normalize_rows at2]. apply Rlt_le.
    apply Rdiv_lt_0_compat; [|apply Hsum].
    cbn [retained_loadings at2]. apply softplus_real_pos.
  - intros i. apply row_sum_normalize_rows.
    specialize (Hsum i). lra.
Qed.


(** C10. In exact arithmetic the softplus kernel is positive, every entry
    [get_proportions] keeps is the kernel's value at a loading, and so, in
    every mode and for every argument, the row sums it divides by are
    positive as soon as a column is kept: the division is never a division
    by zero. *)
Theorem normalization_denominator_positive
  {wt : Type}
  (FCLayers_forward : list wt -> Tensor2 -> list IndexTensor -> nat -> nat -> R)
  (self : HSTDeconv wt) (x : option Tensor2) (keep_noise : bool) :
  keep_noise = true \/ (0 < n_labels self)%nat ->
  (amortized_proportion (amortization self) = true -> x <> None) ->
  let kept :=
    retained_loadings softplus_real wt FCLayers_forward self x keep_noise in
  (forall t, 0 < softplus_real t)
  /\ outcome (get_proportions softplus_real wt FCLayers_forward self x
                keep_noise)
     = inr (normalize_rows kept)
  /\ (forall i j,
        at2 kept i j
        = softplus_real (accessor_loading wt FCLayers_forward self x i j))
  /\ (forall i, 0 < row_sum kept i)
  /\ (forall i j,
        at2 (normalize_rows kept) i j = at2 kept i j / row_sum kept i
        /\ row_sum kept i <> 0).
Proof.
  intros Hcol Hx kept.
  assert (Hsum : forall i, 0 < row_sum kept i).
  { intros i. apply retained_row_sum_pos; [apply softplus_real_pos|exact Hcol]. }
  split; [exact softplus_real_pos|].
  split; [apply get_proportions_outcome, Hx|].
  split; [reflexivity|]. split; [exact Hsum|].
  intros i j. split; [reflexivity|]. specialize (Hsum i). lra.
Qed.




(** ** Keeping the noise column *)

(** On the module, the result with the noise column has one more column
    than the result without, and dropping that column and dividing the rows
    by their sums again gives the result without. *)
Lemma module_proportions_noise_column
  {wt : Type}
  (FCLayers_forward : list wt -> Tensor2 -> list IndexTensor -> nat -> nat -> R)
  (self : HSTDeconv wt) (x : option Tensor2) :
  (0 < n_labels self)%nat ->
  (amortized_proportion (amortization self) = true -> x <> None) ->
  exists with_noise without,
    outcome (get_proportions softplus_real wt FCLayers_forward self x true)
    = inr with_noise
    /\ outcome (get_proportions softplus_real wt FCLayers_forward self x false)
       = inr without
    /\ cols with_noise = (cols without + 1)%nat
    /\ rows with_noise = rows without
    /\ forall i j,
         at2 (normalize_rows (drop_last_col with_noise)) i j
         = at2 without i j.
Proof.
  intros Hlab Hx. eexists. eexists.
  split; [apply get_proportions_outcome, Hx|].
  split; [apply get_proportions_outcome, Hx|].
  split; [reflexivity|]. split; [reflexivity|].
  intros i j.
  pose proof (retained_row_sum_pos softplus_real wt FCLayers_forward self x
                true i softplus_real_pos (or_introl eq_refl)) as HS.
  pose proof (retained_row_sum_pos softplus_real wt FCLayers_forward self x
                false i softplus_real_pos (or_intror Hlab)) as HT.
  set (Rt := retained_loadings softplus_real wt FCLayers_forward self x true)
    in *.
  set (Rf := retained_loadings softplus_real wt FCLayers_forward self x false)
    in *.
  assert (Hd : row_sum (drop_last_col (normalize_rows Rt)) i
               = row_sum Rf i / row_sum Rt i).
  { unfold row_sum at 1.
    cbn [drop_last_col normalize_rows cols at2 Rt retained_loadings].
    rewrite Nat.add_sub, rsum_div. reflexivity. }
  change (at2 (normalize_rows (drop_last_col (normalize_rows Rt))) i j)
    with (at2 Rt i j / row_sum Rt i
          / row_sum (drop_last_col (normalize_rows Rt)) i).
  rewrite Hd.
  change (at2 (normalize_rows Rf) i j) with (at2 Rf i j / row_sum Rf i).
  change (at2 Rt i j) with (at2 Rf i j).
  field. split; lra.
Qed.

(** In a non-amortized mode the model accessor passes [keep_noise] on. *)
Lemma DestVI_get_proportions_stored
  (softplus : R -> R) {wt : Type}
  (FCLayers_forward : list wt -> Tensor2 -> list IndexTensor -> nat -> nat -> R)
  (m : DestVI wt) (dataset : option AnnData) (keep_noise : bool) :
  amortized_proportion (amortization (module m)) = false ->
  length (cell_type_mapping m) = n_labels (module m) ->
  rows (X (adata m)) = n_spots (module m) ->
  exists df,
    outcome (DestVI_get_proportions softplus wt FCLayers_forward m dataset
               keep_noise) = inr df
    /\ cols (df_data df)
       = (if keep_noise then n_labels (module m) + 1 else n_labels (module m))%nat.
Proof.
  intros Ha Hmap Hobs. unfold DestVI_get_proportions. rewrite Ha.
  rewrite outcome_bind, get_proportions_outcome
    by (rewrite Ha; discriminate).
  unfold pd_DataFrame. cbn [normalize_rows retained_loadings rows cols].
  rewrite Ha, Hobs, Nat.eqb_refl, andb_true_r.
  destruct keep_noise.
  - rewrite length_app, Hmap. cbn [length]. rewrite Nat.eqb_refl.
    eexists. split; reflexivity.
  - rewrite Hmap, Nat.eqb_refl. eexists. split; reflexivity.
Qed.

Lemma for_each_outcome {A B} (f : A -> Eff B) (P : B -> Prop) (l : list A) :
  (forall a, In a l -> exists b, outcome (f a) = inr b /\ P b) ->
  exists bs, outcome (for_each f l) = inr bs
             /\ length bs = length l /\ Forall P bs.
Proof.
  induction l as [|a l IH]; intros H.
  - exists []. repeat split. constructor.
  - destruct (H a (or_introl eq_refl)) as (b & Hb & HP).
    destruct IH as (bs & Hbs & Hlen & HF).
    { intros a' Ha'. apply H. right. exact Ha'. }
    exists (b :: bs). cbn [for_each].
    rewrite outcome_bind, Hb, outcome_bind, Hbs.
    repeat split; [cbn; lia|constructor; assumption].
Qed.

Lemma torch_cat_cols (c : nat) (ts : list Tensor2) :
  ts <> [] -> Forall (fun t => cols t = c) ts ->
  exists r, outcome (torch_cat ts) = inr r /\ cols r = c.
Proof.
  induction ts as [|t ts IH]; intros Hne HF; [contradiction|].
  inversion HF as [|? ? Ht HF']; subst.
  destruct ts as [|t' ts].
  - exists t. split; reflexivity.
  - destruct IH as (r & Hr & Hc); [discriminate|exact HF'|].
    change (torch_cat (t :: t' :: ts))
      with (let* r := torch_cat (t' :: ts) in
            if (cols t =? cols r)%nat then ret (cat_rows t r)
            else raise RuntimeError).
    rewrite outcome_bind, Hr, Hc, Nat.eqb_refl.
    eexists. split; reflexivity.
Qed.

Lemma DataLoader_nonempty (t : Tensor2) :
  (0 < rows t)%nat -> DataLoader t <> [].
Proof.
  intros H. unfold DataLoader.
  assert (Hk : (1 <= (rows t + 127) / 128)%nat).
  { apply Nat.div_le_lower_bound; lia. }
  destruct ((rows t + 127) / 128)%nat as [|k]; [lia|]. discriminate.
Qed.

(** C5, on the model accessor.  When the loadings are amortized,
    [DestVI.get_proportions] calls the module without [keep_noise]: with
    [keep_noise = True] the values have [n_labels] columns against
    [n_labels + 1] column names, and building the frame raises. *)
Theorem DestVI_get_proportions_amortized_keep_noise_raises
  (softplus : R -> R) {wt : Type}
  (FCLayers_forward : list wt -> Tensor2 -> list IndexTensor -> nat -> nat -> R)
  (m : DestVI wt) (dataset : AnnData) :
  amortized_proportion (amortization (module m)) = true ->
  (0 < rows (X dataset))%nat ->
  length (cell_type_mapping m) = n_labels (module m) ->
  outcome (DestVI_get_proportions softplus wt FCLayers_forward m
             (Some dataset) true) = inl ValueError.
Proof.
  intros Ha Hrows Hmap. unfold DestVI_get_proportions. rewrite Ha.
  cbn [require]. rewrite bind_ret_l.
  destruct (for_each_outcome
              (fun t => get_proportions softplus wt FCLayers_forward
                          (module m) (Some t) false)
              (fun r => cols r = n_labels (module m))
              (DataLoader (X dataset))) as (bs & Hbs & Hlen & HF).
  { intros t _. eexists. split.
    - apply get_proportions_outcome. discriminate.
    - reflexivity. }
  destruct (torch_cat_cols (n_labels (module m)) bs) as (r & Hr & Hc).
  { intros ->. apply (DataLoader_nonempty (X dataset) Hrows).
    apply length_zero_iff_nil. symmetry. exact Hlen. }
  { exact HF. }
  rewrite outcome_bind, outcome_bind, Hbs, Hr.
  unfold pd_DataFrame. rewrite Hc, length_app, Hmap. cbn [length].
  replace (n_labels (module m) =? n_labels (module m) + 1)%nat with false
    by (symmetry; apply Nat.eqb_neq; lia).
  reflexivity.
Qed.

(** ** What the encoders are given *)

Section EncoderInputs.

Variable softplus : R -> R.
Variable wt : Type.
Variable FCLayers_forward :
  list wt -> Tensor2 -> list IndexTensor -> nat -> nat -> R.
Variable Linear_forward : list wt -> Tensor2 -> nat -> nat -> R.
Variable self : HSTDeconv wt.

(** [get_proportions] hands its argument to the loading encoder as it
    is. *)
Lemma trace_get_proportions (x : Tensor2) (keep_noise : bool) :
  amortized_proportion (amortization self) = true ->
  trace (get_proportions softplus wt FCLayers_forward self (Some x) keep_noise)
  = [V_encoder_call x].
Proof.
  intros Ha. unfold get_proportions. rewrite Ha.
  unfold call_V_encoder. rewrite !trace_bind, !outcome_bind.
  reflexivity.
Qed.

(** [get_gamma] hands its argument to the latent encoder as it is. *)
Lemma trace_get_gamma (x : Tensor2) :
  amortized_latent (amortization self) = true ->
  (0 < n_latent self * n_labels self)%nat ->
  trace (get_gamma wt FCLayers_forward Linear_forward self (Some x))
  = [gamma_encoder_call x].
Proof.
  intros Ha Hk. unfold get_gamma. rewrite Ha.
  unfold call_gamma_encoder. rewrite !trace_bind, !outcome_bind.
  cbn [outcome trace log_call ret fst snd].
  rewrite (reshape_to3_exact _ _ (rows x)); [reflexivity|exact Hk|].
  unfold numel2. cbn. lia.
Qed.

(** [generative] gives both encoders [log1p x]. *)
Lemma trace_generative (x : Tensor2) (ind_x : IndexTensor) :
  amortization self = both ->
  (0 < n_latent self)%nat -> (0 < n_labels self)%nat -> (0 < rows x)%nat ->
  trace (generative softplus wt FCLayers_forward Linear_forward self x ind_x)
  = [gamma_encoder_call (log1p x); V_encoder_call (log1p x)].
Proof.
  intros Ha Hlat Hlab HM. unfold generative. cbv zeta. rewrite Ha.
  cbn [amortized_latent amortized_proportion].
  unfold call_gamma_encoder, call_V_encoder.
  rewrite !trace_bind, !outcome_bind.
  cbn [outcome trace log_call ret fst snd].
  rewrite (reshape_to3_exact _ _ (rows x));
    [|nia|unfold numel2; cbn; lia].
  cbn [outcome trace ret fst snd].
  rewrite !trace_bind, !outcome_bind.
  cbn [outcome trace log_call ret fst snd].
  rewrite !trace_bind.
  rewrite (reshape_to2_exact (rows x * n_labels self));
    [|exact Hlat|unfold numel3; cbn; lia].
  cbn [outcome trace ret fst snd].
  rewrite !trace_bind.
  rewrite (reshape_to3_exact _ _ (n_genes self));
    [|nia|unfold numel2; cbn; lia].
  reflexivity.
Qed.

End EncoderInputs.

Lemma ln_2_lt_1 : ln (1 + 1) < 1.
Proof.
  assert (H : ln (1 + 1) < ln (exp 1)).
  { apply ln_increasing; [lra|]. apply exp_ineq1. lra. }
  rewrite ln_exp in H. exact H.
Qed.

Lemma toy_counts_not_log1p : toy_counts <> log1p toy_counts.
Proof.
  intros H.
  assert (H0 : at2 toy_counts 0 0 = at2 (log1p toy_counts) 0 0)
    by (rewrite <- H; reflexivity).
  cbn in H0. pose proof ln_2_lt_1. lra.
Qed.

(** C3, at a failing input.  In mode [both], on the one-spot count matrix
    with all counts 1, [get_proportions] and [get_gamma] give the encoders
    the counts themselves, which differ from their [log1p]; [generative]
    gives both encoders the [log1p] of the counts. *)
Theorem accessors_give_encoders_raw_counts :
  trace (get_proportions softplus_real unit zero_layers (toy_module both)
           (Some toy_counts) false)
  = [V_encoder_call toy_counts]
  /\ trace (get_gamma unit zero_layers zero_linear (toy_module both)
              (Some toy_counts))
     = [gamma_encoder_call toy_counts]
  /\ toy_counts <> log1p toy_counts
  /\ trace (generative softplus_real unit zero_layers zero_linear
              (toy_module both) toy_counts toy_ind_x)
     = [gamma_encoder_call (log1p toy_counts);
        V_encoder_call (log1p toy_counts)].
Proof.
  split; [apply trace_get_proportions; reflexivity|].
  split; [apply trace_get_gamma; [reflexivity|simpl; lia]|].
  split; [exact toy_counts_not_log1p|].
  apply trace_generative; [reflexivity|simpl; lia..].
Qed.

(** ** The frozen reference decoder *)

Section Frozen.

Variable softplus : R -> R.
Variable wt : Type.
Variable FCLayers_forward :
  list wt -> Tensor2 -> list IndexTensor -> nat -> nat -> R.
Variable Linear_forward : list wt -> Tensor2 -> nat -> nat -> R.
Variable nb_log_prob : R -> R -> R -> R.

Lemma run_unchanged (self : HSTDeconv wt) (os : list Op) :
  run FCLayers_forward Linear_forward nb_log_prob (softplus := softplus)
      self os = self.
Proof.
  unfold run. induction os as [|o os IH]; [reflexivity|].
  cbn [fold_left]. destruct o; exact IH.
Qed.

Lemma disable_grad_all_off (m : nn_Module wt) :
  Forall (fun kp => requires_grad (snd kp) = false) (disable_grad wt m).
Proof.
  unfold disable_grad. apply List.Forall_forall. intros kp Hin.
  apply in_map_iff in Hin as (kp' & <- & _). reflexivity.
Qed.

Lemma load_state_dict_outcome (m : nn_Module wt) (sd : gmap string wt) :
  dom sd = list_to_set (map fst m) ->
  exists m',
    outcome (load_state_dict wt m sd) = inr m'
    /\ map fst m' = map fst m
    /\ (forall k prm, In (k, prm) m' -> sd !! k = Some (data prm))
    /\ map (fun kp => requires_grad (snd kp)) m'
       = map (fun kp => requires_grad (snd kp)) m.
Proof.
  intros Hdom. unfold load_state_dict. rewrite bool_decide_eq_true_2 by exact Hdom.
  eexists. split; [reflexivity|]. split; [|split].
  - rewrite map_map. reflexivity.
  - intros k prm Hin. apply in_map_iff in Hin as ([k' prm'] & Heq & Hin).
    cbn [fst snd] in Heq. injection Heq as -> <-. cbn [data].
    assert (Hk : k ∈ dom sd).
    { rewrite Hdom. apply elem_of_list_to_set, list_elem_of_In.
      apply in_map_iff. exists (k, prm'). split; [reflexivity|exact Hin]. }
    apply elem_of_dom in Hk as [w Hw]. rewrite Hw. reflexivity.
  - rewrite map_map. reflexivity.
Qed.

Lemma disable_grad_data (m : nn_Module wt) (k : string)
  (prm : TorchParameter wt) :
  In (k, prm) (disable_grad wt m) -> exists prm', In (k, prm') m /\ data prm' = data prm.
Proof.
  unfold disable_grad. intros Hin.
  apply in_map_iff in Hin as ([k' prm'] & Heq & Hin).
  cbn [fst snd] in Heq. injection Heq as -> <-.
  exists prm'. split; [exact Hin|reflexivity].
Qed.

Lemma load_state_dict_fresh (ws : list (string * wt)) (sd : gmap string wt) :
  dom sd = list_to_set (map fst ws) ->
  exists m,
    outcome (load_state_dict wt (fresh wt ws) sd) = inr m
    /\ Forall2 (loaded_and_frozen sd) ws (disable_grad wt m).
Proof.
  intros Hdom. unfold load_state_dict.
  rewrite bool_decide_eq_true_2
    by (rewrite Hdom; unfold fresh; rewrite map_map; reflexivity).
  eexists. split; [reflexivity|].
  assert (Hin : forall kw, In kw ws -> is_Some (sd !! fst kw)).
  { intros kw Hkw. apply elem_of_dom. rewrite Hdom.
    apply elem_of_list_to_set, list_elem_of_In, in_map. exact Hkw. }
  clear Hdom. induction ws as [|kw ws IH]; [constructor|].
  cbn [fresh disable_grad map fst snd data requires_grad]. constructor.
  - destruct (Hin kw (or_introl eq_refl)) as [w Hw].
    unfold loaded_and_frozen. cbn [fst snd data requires_grad].
    rewrite Hw. repeat split.
  - apply IH. intros kw' Hkw'. apply Hin. right. exact Hkw'.
Qed.

(** C8. When the names of the frozen bundle are those of the decoder and
    of the projection stage, the constructor returns a module whose
    decoder and projection stage hold, parameter by parameter and in
    order, the parameters they were built with, each with the bundle's
    value and with gradient tracking off; and after any sequence of core
    operations both are the very same parameters, still with gradient
    tracking off. *)
Theorem frozen_decoder_stays_frozen
  (rnd : Fresh wt) (n_spots n_labels : nat)
  (sd0 sd1 : gmap string wt) (sd2 : nat -> R)
  (n_hidden n_latent n_genes : nat)
  (mean_vprior : option (nat * (nat -> nat -> nat -> R)))
  (var_vprior : option (nat -> nat -> nat -> R))
  (a : Amortization) (os : list Op) :
  dom sd0 = list_to_set (map fst (new_decoder rnd)) ->
  dom sd1 = list_to_set (map fst (new_px_decoder rnd)) ->
  (mean_vprior <> None -> var_vprior <> None) ->
  exists self,
    outcome (init wt rnd n_spots n_labels (sd0, sd1, sd2) n_hidden n_latent
               n_genes mean_vprior var_vprior a) = inr self
    /\ frozen self
    /\ Forall2 (loaded_and_frozen sd0) (new_decoder rnd) (decoder self)
    /\ Forall2 (loaded_and_frozen sd1) (new_px_decoder rnd) (px_decoder self)
    /\ (forall k prm, In (k, prm) (decoder self) -> sd0 !! k = Some (data prm))
    /\ (forall k prm,
          In (k, prm) (px_decoder self) -> sd1 !! k = Some (data prm))
    /\ let self' :=
         run FCLayers_forward Linear_forward nb_log_prob
             (softplus := softplus) self os in
       frozen self'
       /\ decoder self' = decoder self
       /\ px_decoder self' = px_decoder self.
Proof.
  intros H0 H1 Hvar.
  destruct (load_state_dict_outcome (fresh wt (new_decoder rnd)) sd0)
    as (d & Hd & _ & Hdv & _).
  { rewrite H0. unfold fresh. rewrite map_map. reflexivity. }
  destruct (load_state_dict_outcome (fresh wt (new_px_decoder rnd)) sd1)
    as (q & Hq & _ & Hqv & _).
  { rewrite H1. unfold fresh. rewrite map_map. reflexivity. }
  destruct (load_state_dict_fresh (new_decoder rnd) sd0 H0)
    as (d' & Hd' & Hd2).
  rewrite Hd in Hd'. injection Hd' as <-.
  destruct (load_state_dict_fresh (new_px_decoder rnd) sd1 H1)
    as (q' & Hq' & Hq2).
  rewrite Hq in Hq'. injection Hq' as <-.
  assert (Hv : exists v,
             outcome (match mean_vprior with
                      | Some (p, mu) =>
                        let* var := require RuntimeError var_vprior in
                        ret (Some {| p := p; mean_vprior := mu;
                                     var_vprior := var |})
                      | None => ret None
                      end) = inr v).
  { destruct mean_vprior as [[p0 mu]|]; [|eexists; reflexivity].
    destruct var_vprior as [var|]; [eexists; reflexivity|].
    exfalso. apply Hvar; [discriminate|reflexivity]. }
  destruct Hv as (v & Hv).
  eexists. unfold init. rewrite !outcome_bind, Hd, !outcome_bind, Hq.
  rewrite !outcome_bind, Hv. split; [reflexivity|].
  assert (Hfr : frozen
                  {| n_spots := n_spots; n_labels := n_labels;
                     n_hidden := n_hidden; n_latent := n_latent;
                     n_genes := n_genes; amortization := a;
                     decoder := disable_grad wt d;
                     px_decoder := disable_grad wt q; px_o := sd2;
                     V := mkParam (randn_V wt rnd) true;
                     gamma := mkParam (randn_gamma wt rnd) true;
                     vprior := v;
                     eta := mkParam (randn_eta wt rnd) true;
                     beta := mkParam (fun g => 0.01 * randn_beta wt rnd g) true;
                     gamma_encoder :=
                       (fresh wt (fst (new_gamma_encoder wt rnd)),
                        fresh wt (snd (new_gamma_encoder wt rnd)));
                     V_encoder := fresh wt (new_V_encoder wt rnd) |}).
  { unfold frozen. cbn [decoder px_decoder]. apply Forall_app. split; apply disable_grad_all_off. }
  split; [exact Hfr|]. split; [exact Hd2|]. split; [exact Hq2|].
  split; [|split].
  - cbn [decoder]. intros k prm Hin.
    apply disable_grad_data in Hin as (prm' & Hin & <-). apply Hdv, Hin.
  - cbn [px_decoder]. intros k prm Hin.
    apply disable_grad_data in Hin as (prm' & Hin & <-). apply Hqv, Hin.
  - cbv zeta. rewrite run_unchanged. split; [exact Hfr|]. split; reflexivity.
Qed.

End Frozen.

(** ** The configuration split of [Autotune] *)

Section AutotuneSplit.

Context {Val : Type}.

Lemma route_same_dict (th : gmap string Val) (key : string) (v : Val)
  (mc tc pc : gmap string Val) :
  route (Some th) (Some th) (Some th) key v (inr (mc, tc, pc))
  = inr (if bool_decide (key ∈ dom th) then <[key := v]> mc else mc, tc, pc).
Proof.
  unfold route, key_in. destruct (bool_decide (key ∈ dom th)); reflexivity.
Qed.

Lemma split_same_dict (th config : gmap string Val) :
  map_fold (route (Some th) (Some th) (Some th)) (inr (∅, ∅, ∅)) config
  = inr (filter (fun kv => kv.1 ∈ dom th) config, ∅, ∅).
Proof.
  apply (map_fold_weak_ind
           (fun r m => r = inr (filter (fun kv => kv.1 ∈ dom th) m, ∅, ∅))).
  - rewrite map_filter_empty. reflexivity.
  - intros key v m r Hnone ->. rewrite route_same_dict.
    destruct (bool_decide_reflect (key ∈ dom th)) as [Hin|Hout].
    + rewrite map_filter_insert_True by exact Hin. reflexivity.
    + rewrite map_filter_insert_not by (intros y; exact Hout). reflexivity.
Qed.

(** C9. In both places where [Autotune] splits a configuration, all three
    tests read [trainer_hyperparams]: a key of the configuration goes to
    the model configuration exactly when it is a trainer hyperparameter,
    with its value, and the trainer and plan configurations stay empty. *)
Theorem config_split_reads_trainer_hyperparams
  (self : Autotune Val) (th config : gmap string Val) :
  trainer_hyperparams self = Some th ->
  let routed := filter (fun kv => kv.1 ∈ dom th) config in
  _scvi_trainable self config = inr (routed, ∅, ∅)
  /\ run_best_configs self config = inr (routed, ∅, ∅)
  /\ forall key v,
       routed !! key = Some v <-> config !! key = Some v /\ key ∈ dom th.
Proof.
  intros Hth routed. unfold _scvi_trainable, run_best_configs. rewrite Hth.
  split; [apply split_same_dict|]. split; [apply split_same_dict|].
  intros key v. unfold routed. rewrite map_lookup_filter_Some. reflexivity.
Qed.

End AutotuneSplit.

(** ** The statements at the small instances *)

Lemma generative_rate_is_library_times_mixture_witness :
  (0 < n_latent (toy_module none))%nat
  /\ (0 < n_labels (toy_module none))%nat
  /\ (0 < rows toy_counts)%nat
  /\ len toy_ind_x = rows toy_counts
  /\ (forall m, (m < len toy_ind_x)%nat ->
                (idx toy_ind_x m < n_spots (toy_module none))%nat)
  /\ exists out,
       outcome (generative softplus_real unit zero_layers zero_linear
                  (toy_module none) toy_counts toy_ind_x) = inr out.
Proof.
  assert (H1 : (0 < n_latent (toy_module none))%nat) by (simpl; lia).
  assert (H2 : (0 < n_labels (toy_module none))%nat) by (simpl; lia).
  assert (H3 : (0 < rows toy_counts)%nat) by (simpl; lia).
  assert (H4 : len toy_ind_x = rows toy_counts) by reflexivity.
  assert (H5 : forall m, (m < len toy_ind_x)%nat ->
                         (idx toy_ind_x m < n_spots (toy_module none))%nat)
    by (intros m _; simpl; lia).
  repeat (split; [assumption|]).
  destruct (generative_rate_is_library_times_mixture softplus_real unit
              zero_layers zero_linear (toy_module none) toy_counts toy_ind_x
              H1 H2 H3 H4 H5) as (out & _ & Hout & _).
  exists out. exact Hout.
Defined.

Lemma proportions_rows_sum_to_one_witness :
  (0 < n_labels (toy_module both))%nat
  /\ (amortized_proportion (amortization (toy_module both)) = true ->
      Some toy_counts <> None)
  /\ exists res,
       outcome (get_proportions softplus_real unit zero_layers
                  (toy_module both) (Some toy_counts) false) = inr res
       /\ cols res = n_labels (toy_module both)
       /\ (forall i j, 0 <= at2 res i j)
       /\ (forall i, row_sum res i = 1).
Proof.
  assert (H1 : (0 < n_labels (toy_module both))%nat) by (simpl; lia).
  assert (H2 : amortized_proportion (amortization (toy_module both)) = true ->
               Some toy_counts <> None) by (intros _; discriminate).
  exact (conj H1 (conj H2
           (proportions_rows_sum_to_one zero_layers (toy_module both)
              (Some toy_counts) H1 H2))).
Defined.

Lemma normalization_denominator_positive_witness :
  (false = true \/ (0 < n_labels (toy_module none))%nat)
  /\ (amortized_proportion (amortization (toy_module none)) = true ->
      @None Tensor2 <> None)
  /\ forall i,
       0 < row_sum (retained_loadings softplus_real unit zero_layers
                      (toy_module none) None false) i.
Proof.
  assert (H1 : false = true \/ (0 < n_labels (toy_module none))%nat)
    by (right; simpl; lia).
  assert (H2 : amortized_proportion (amortization (toy_module none)) = true ->
               @None Tensor2 <> None) by (simpl; discriminate).
  split; [exact H1|]. split; [exact H2|].
  exact (proj1 (proj2 (proj2 (proj2
           (normalization_denominator_positive zero_layers (toy_module none)
              None false H1 H2))))).
Defined.


Lemma vamp_standard_bank_is_isotropic_witness :
  (0 < p standard_bank)%nat
  /\ (forall c k l, (c < dim1 toy_gamma)%nat -> (k < p standard_bank)%nat ->
                    (l < dim2 toy_gamma)%nat ->
                    mean_vprior standard_bank c k l = 0
                    /\ var_vprior standard_bank c k l = 1)
  /\ neg_log_likelihood_prior
       (set_vprior (toy_module none) (Some standard_bank)) toy_gamma 0
     = neg_log_likelihood_prior
         (set_vprior (toy_module none) None) toy_gamma 0.
Proof.
  assert (H1 : (0 < p standard_bank)%nat) by (simpl; lia).
  assert (H2 : forall c k l, (c < dim1 toy_gamma)%nat ->
                 (k < p standard_bank)%nat -> (l < dim2 toy_gamma)%nat ->
                 mean_vprior standard_bank c k l = 0
                 /\ var_vprior standard_bank c k l = 1)
    by (intros; split; reflexivity).
  exact (conj H1 (conj H2
           (vamp_standard_bank_is_isotropic (toy_module none) standard_bank
              toy_gamma 0 H1 H2))).
Defined.

Lemma DestVI_get_proportions_amortized_keep_noise_raises_witness :
  amortized_proportion (amortization (module (toy_model both))) = true
  /\ (0 < rows (X (adata (toy_model both))))%nat
  /\ length (cell_type_mapping (toy_model both))
     = n_labels (module (toy_model both))
  /\ outcome (DestVI_get_proportions softplus_real unit zero_layers
                (toy_model both) (Some (adata (toy_model both))) true)
     = inl ValueError.
Proof.
  assert (H1 : amortized_proportion
                 (amortization (module (toy_model both))) = true)
    by reflexivity.
  assert (H2 : (0 < rows (X (adata (toy_model both))))%nat) by (simpl; lia).
  assert (H3 : length (cell_type_mapping (toy_model both))
               = n_labels (module (toy_model both))) by reflexivity.
  exact (conj H1 (conj H2 (conj H3
           (DestVI_get_proportions_amortized_keep_noise_raises softplus_real
              zero_layers (toy_model both) (adata (toy_model both))
              H1 H2 H3)))).
Defined.

Lemma config_split_reads_trainer_hyperparams_witness :
  trainer_hyperparams test_tuner = Some ∅
  /\ _scvi_trainable test_tuner (config test_tuner)
     = inr (filter (fun kv => kv.1 ∈ dom (∅ : gmap string nat))
                   (config test_tuner), ∅, ∅).
Proof.
  assert (H1 : trainer_hyperparams test_tuner = Some ∅) by reflexivity.
  exact (conj H1
           (proj1 (config_split_reads_trainer_hyperparams test_tuner ∅
                     (config test_tuner) H1))).
Defined.

Lemma frozen_decoder_stays_frozen_witness :
  dom (fst (fst toy_bundle)) = list_to_set (map fst (new_decoder toy_fresh))
  /\ dom (snd (fst toy_bundle))
     = list_to_set (map fst (new_px_decoder toy_fresh))
  /\ (@None (nat * (nat -> nat -> nat -> R)) <> None ->
      @None (nat -> nat -> nat -> R) <> None)
  /\ exists self,
       outcome (init unit toy_fresh 2 2 toy_bundle 1 1 2 None None none)
       = inr self
       /\ Forall2 (loaded_and_frozen (fst (fst toy_bundle)))
                  (new_decoder toy_fresh) (decoder self)
       /\ frozen (run zero_layers zero_linear zero_density
                      (softplus := softplus_real) self
                      [op_get_proportions None true; op_inference; op_sample]).
Proof.
  assert (H1 : dom (fst (fst toy_bundle))
               = list_to_set (map fst (new_decoder toy_fresh)))
    by (vm_compute; reflexivity).
  assert (H2 : dom (snd (fst toy_bundle))
               = list_to_set (map fst (new_px_decoder toy_fresh)))
    by (vm_compute; reflexivity).
  assert (H3 : @None (nat * (nat -> nat -> nat -> R)) <> None ->
               @None (nat -> nat -> nat -> R) <> None)
    by (intros H; exfalso; apply H; reflexivity).
  repeat (split; [assumption|]).
  destruct (frozen_decoder_stays_frozen softplus_real unit zero_layers
              zero_linear zero_density toy_fresh 2 2
              (fst (fst toy_bundle)) (snd (fst toy_bundle)) (snd toy_bundle)
              1 1 2 None None none
              [op_get_proportions None true; op_inference; op_sample]
              H1 H2 H3) as (self & Hinit & _ & Hdec & _ & _ & _ & Hrun & _).
  exists self. split; [exact Hinit|]. split; [exact Hdec|exact Hrun].
Defined.

(** * Further properties of the accessors *)

Section AccessorsMore.

Variable softplus : R -> R.
Variable wt : Type.
Variable FCLayers_forward :
  list wt -> Tensor2 -> list IndexTensor -> nat -> nat -> R.
Variable Linear_forward : list wt -> Tensor2 -> nat -> nat -> R.
Variable self : HSTDeconv wt.

Lemma get_proportions_stored (x : option Tensor2) (keep_noise : bool) :
  amortized_proportion (amortization self) = false ->
  get_proportions softplus wt FCLayers_forward self x keep_noise
  = ([], inr (normalize_rows
                (retained_loadings softplus wt FCLayers_forward self None
                                   keep_noise))).
Proof.
  intros Ha. unfold get_proportions, retained_loadings, accessor_loading.
  rewrite Ha. rewrite bind_ret_l. unfold ret. do 2 f_equal.
  destruct keep_noise; cbn [negb]; [reflexivity|].
  unfold drop_last_col, map2d, transpose01, V_tensor, normalize_rows, row_sum.
  cbn [rows cols at2]. rewrite Nat.add_sub. reflexivity.
Qed.

(** X2. When the loadings are not amortized, [get_proportions] does not read
    [x]: whatever is passed, it invokes no encoder and returns the
    normalised stored loadings, one row per spot of the model. *)
Theorem get_proportions_stored_ignores_x (x : option Tensor2)
  (keep_noise : bool) :
  amortized_proportion (amortization self) = false ->
  exists res,
    get_proportions softplus wt FCLayers_forward self x keep_noise
    = ([], inr res)
    /\ get_proportions softplus wt FCLayers_forward self None keep_noise
       = ([], inr res)
    /\ rows res = n_spots self
    /\ cols res = (if keep_noise then n_labels self + 1 else n_labels self)%nat
    /\ forall i j,
         at2 res i j
         = softplus (data (V self) j i)
           / rsum (cols res) (fun k => softplus (data (V self) k i)).
Proof.
  intros Ha. eexists.
  split; [apply get_proportions_stored, Ha|].
  split; [apply get_proportions_stored, Ha|].
  cbn [normalize_rows retained_loadings rows cols at2].
  rewrite Ha. split; [reflexivity|]. split; [reflexivity|].
  intros i j. unfold row_sum. cbn [retained_loadings cols at2].
  unfold accessor_loading. rewrite Ha. reflexivity.
Qed.

(** X3. When the latent codes are amortized and the module has at least one
    latent coordinate and one cell type, [get_gamma] on a batch with one
    column per gene returns a
    tensor of shape [[n_latent, n_labels, batch]] whose entry [(l, c, m)]
    is entry [l * n_labels + c] of the latent encoder's output row [m]; the
    encoder is invoked once, on [x] as given. *)
Theorem get_gamma_amortized_layout (x : Tensor2) :
  amortized_latent (amortization self) = true ->
  (0 < n_latent self)%nat -> (0 < n_labels self)%nat ->
  cols x = n_genes self ->
  exists G,
    get_gamma wt FCLayers_forward Linear_forward self (Some x)
    = ([gamma_encoder_call x], inr G)
    /\ dim0 G = n_latent self /\ dim1 G = n_labels self /\ dim2 G = rows x
    /\ forall l c m,
         (c < n_labels self)%nat -> (m < rows x)%nat ->
         at3 G l c m
         = Linear_forward (weights wt (snd (gamma_encoder self)))
             {| rows := rows x; cols := n_hidden self;
                at2 := FCLayers_forward
                         (weights wt (fst (gamma_encoder self))) x [] |}
             m (l * n_labels self + c)%nat.
Proof.
  intros Ha Hlat Hlab _.
  pose proof (trace_get_gamma wt FCLayers_forward Linear_forward self x Ha
                ltac:(nia)) as Htr.
  unfold get_gamma in *. rewrite Ha in *. unfold call_gamma_encoder in *.
  set (g := {| rows := rows x;
               cols := (n_latent self * n_labels self)%nat;
               at2 := Linear_forward (weights wt (snd (gamma_encoder self)))
                        {| rows := rows x; cols := n_hidden self;
                           at2 := FCLayers_forward
                                    (weights wt (fst (gamma_encoder self)))
                                    x [] |} |}) in *.
  assert (Hout : outcome
                   (let* g0 := (let* _ := log_call (gamma_encoder_call x) in
                                ret g) in
                    reshape_to3 (n_latent self) (n_labels self)
                                (transpose01 g0))
                 = inr {| dim0 := n_latent self; dim1 := n_labels self;
                          dim2 := rows x;
                          at3 := fun i j k =>
                            flat2 (transpose01 g)
                              ((i * n_labels self + j) * rows x + k)%nat |}).
  { rewrite !outcome_bind. cbn [outcome log_call ret snd].
    rewrite (reshape_to3_exact _ _ (rows x)); [reflexivity|nia|].
    unfold numel2. cbn. lia. }
  eexists. split.
  - apply injective_projections; [exact Htr|exact Hout].
  - cbn [dim0 dim1 dim2 at3]. repeat split. intros l c m Hc Hm.
    change (rows x) with (cols (transpose01 g)) at 1.
    rewrite flat2_at by (cbn; exact Hm). reflexivity.
Qed.

End AccessorsMore.

(** ** The share of the noise column *)

Lemma rsum_nonneg (n : nat) (f : nat -> R) :
  (forall k, (k < n)%nat -> 0 <= f k) -> 0 <= rsum n f.
Proof.
  induction n as [|n IH]; intros H; simpl; [lra|].
  assert (0 <= rsum n f) by (apply IH; intros; apply H; lia).
  specialize (H n ltac:(lia)). lra.
Qed.

Lemma rsum_ge_term (n : nat) (f : nat -> R) (j : nat) :
  (forall k, (k < n)%nat -> 0 <= f k) -> (j < n)%nat -> f j <= rsum n f.
Proof.
  induction n as [|n IH]; intros H Hj; [lia|]. simpl.
  assert (Hn : 0 <= rsum n f) by (apply rsum_nonneg; intros; apply H; lia).
  destruct (Nat.eq_dec j n) as [->|Hne]; [lra|].
  assert (f j <= rsum n f) by (apply IH; [intros; apply H; lia|lia]).
  specialize (H n ltac:(lia)). lra.
Qed.

Lemma rsum_ge_two_terms (n : nat) (f : nat -> R) (j j' : nat) :
  (forall k, (k < n)%nat -> 0 <= f k) ->
  (j < n)%nat -> (j' < n)%nat -> j <> j' -> f j + f j' <= rsum n f.
Proof.
  induction n as [|n IH]; intros H Hj Hj' Hne; [lia|]. simpl.
  assert (Hpre : forall k, (k < n)%nat -> 0 <= f k) by (intros; apply H; lia).
  destruct (Nat.eq_dec j n) as [->|Hjn].
  - pose proof (rsum_ge_term n f j' Hpre ltac:(lia)). lra.
  - destruct (Nat.eq_dec j' n) as [->|Hj'n].
    + pose proof (rsum_ge_term n f j Hpre ltac:(lia)). lra.
    + pose proof (IH Hpre ltac:(lia) ltac:(lia) Hne).
      specialize (H n ltac:(lia)). lra.
Qed.

(** X4. With at least one cell type (and, when the loadings are amortized, a
    batch with one column per gene), the result of [get_proportions] that
    keeps the noise column has rows summing to 1 and every entry strictly
    between 0 and 1, and the result without the noise column is the result
    with it divided by one minus the noise share of the row. *)
Theorem proportions_noise_share
  {wt : Type}
  (FCLayers_forward : list wt -> Tensor2 -> list IndexTensor -> nat -> nat -> R)
  (self : HSTDeconv wt) (x : option Tensor2) :
  (0 < n_labels self)%nat ->
  (amortized_proportion (amortization self) = true ->
   exists t, x = Some t /\ cols t = n_genes self) ->
  exists with_noise without,
    outcome (get_proportions softplus_real wt FCLayers_forward self x true)
    = inr with_noise
    /\ outcome (get_proportions softplus_real wt FCLayers_forward self x false)
       = inr without
    /\ (forall i, row_sum with_noise i = 1)
    /\ (forall i j, (j < cols with_noise)%nat ->
                    0 < at2 with_noise i j < 1)
    /\ forall i j,
         at2 without i j
         = at2 with_noise i j / (1 - at2 with_noise i (n_labels self)).
Proof.
  intros Hlab Hx0.
  assert (Hx : amortized_proportion (amortization self) = true -> x <> None).
  { intros Ha. destruct (Hx0 Ha) as (t & -> & _). discriminate. }
  eexists. eexists.
  split; [apply get_proportions_outcome, Hx|].
  split; [apply get_proportions_outcome, Hx|].
  set (Rt := retained_loadings softplus_real wt FCLayers_forward self x true).
  set (Rf := retained_loadings softplus_real wt FCLayers_forward self x false).
  assert (HS : forall i, 0 < row_sum Rt i).
  { intros i. apply retained_row_sum_pos; [apply softplus_real_pos|].
    left. reflexivity. }
  assert (HT : forall i, 0 < row_sum Rf i).
  { intros i. apply retained_row_sum_pos; [apply softplus_real_pos|].
    right. exact Hlab. }
  assert (Hpos : forall i j, 0 < at2 Rt i j)
    by (intros; apply softplus_real_pos).
  assert (Hsplit : forall i,
             row_sum Rt i = row_sum Rf i + at2 Rt i (n_labels self)).
  { intros i. unfold row_sum. cbn [Rt Rf retained_loadings cols at2].
    apply rsum_snoc. }
  split; [|split].
  - intros i. apply row_sum_normalize_rows. specialize (HS i). lra.
  - intros i j Hj. cbn [normalize_rows cols at2] in *.
    cbn [Rt retained_loadings cols] in Hj.
    split; [apply Rdiv_lt_0_compat; [apply Hpos|apply HS]|].
    apply (Rmult_lt_reg_r (row_sum Rt i)); [apply HS|].
    unfold Rdiv. rewrite Rmult_assoc, Rinv_l, Rmult_1_r, Rmult_1_l
      by (specialize (HS i); lra).
    set (j' := if Nat.eq_dec j (n_labels self) then 0%nat else n_labels self).
    assert (Hj' : (j' < n_labels self + 1)%nat /\ j <> j').
    { unfold j'. destruct (Nat.eq_dec j (n_labels self)); lia. }
    pose proof (rsum_ge_two_terms (n_labels self + 1) (at2 Rt i) j j'
                  ltac:(intros; apply Rlt_le, Hpos) Hj (proj1 Hj')
                  (proj2 Hj')) as Hge.
    change (rsum (n_labels self + 1) (at2 Rt i)) with (row_sum Rt i) in Hge.
    pose proof (Hpos i j'). lra.
  - intros i j. cbn [normalize_rows at2].
    change (at2 Rf i j) with (at2 Rt i j).
    specialize (HS i). specialize (HT i). specialize (Hsplit i).
    specialize (Hpos i (n_labels self)).
    replace (row_sum Rf i) with (row_sum Rt i - at2 Rt i (n_labels self))
      by lra.
    field. split; lra.
Qed.

(** * Further properties of the generative step and the loss *)

Lemma check_index_fails (n : nat) (ix : IndexTensor) (m : nat) :
  (m < len ix)%nat -> (n <= idx ix m)%nat ->
  check_index n ix = raise IndexError.
Proof.
  intros Hm Hbad. unfold check_index.
  destruct (forallb (fun m0 => (idx ix m0 <? n)%nat) (seq 0 (len ix))) eqn:E;
    [|reflexivity].
  rewrite forallb_forall in E.
  specialize (E m ltac:(apply in_seq; lia)).
  apply Nat.ltb_lt in E. lia.
Qed.

Lemma ln_sqrt_2PI_pos : 0 < ln (sqrt (2 * PI)).
Proof.
  rewrite <- ln_1. apply ln_increasing; [lra|].
  rewrite <- sqrt_1 at 1. apply sqrt_lt_1; [lra| |].
  - pose proof PI_RGT_0. lra.
  - pose proof PI2_3_2. lra.
Qed.

Section GenerativeMore.

Variable softplus : R -> R.
Variable wt : Type.
Variable FCLayers_forward :
  list wt -> Tensor2 -> list IndexTensor -> nat -> nat -> R.
Variable Linear_forward : list wt -> Tensor2 -> nat -> nat -> R.
Variable self : HSTDeconv wt.
Variables (x : Tensor2) (ind_x : IndexTensor).

(** What [generative] returns on a well-formed minibatch, field by
    field. *)
Lemma generative_returns :
  (0 < n_latent self)%nat -> (0 < n_labels self)%nat -> (0 < rows x)%nat ->
  len ind_x = rows x ->
  (forall m, (m < len ind_x)%nat -> (idx ind_x m < n_spots self)%nat) ->
  exists out,
    outcome (generative softplus wt FCLayers_forward Linear_forward self x
                        ind_x) = inr out
    /\ out_px_o out = px_o self
    /\ (dim0 (out_gamma out) = rows x
        /\ dim1 (out_gamma out) = n_labels self
        /\ dim2 (out_gamma out) = n_latent self)
    /\ (forall m c l,
          (m < rows x)%nat -> (c < n_labels self)%nat ->
          at3 (out_gamma out) m c l
          = code_of wt FCLayers_forward Linear_forward self x ind_x l c m)
    /\ (rows (out_v out) = rows x
        /\ cols (out_v out) = (n_labels self + 1)%nat)
    /\ (forall m k,
          at2 (out_v out) m k
          = softplus (loading_of wt FCLayers_forward self x ind_x m k))
    /\ (rows (out_px_scale out) = rows x
        /\ cols (out_px_scale out) = n_genes self
        /\ rows (out_px_rate out) = rows x
        /\ cols (out_px_rate out) = n_genes self)
    /\ (forall m g,
          at2 (out_px_rate out) m g
          = rsum (cols x) (at2 x m) * at2 (out_px_scale out) m g)
    /\ forall m g,
         (g < n_genes self)%nat ->
         exists u : nat -> R,
           at2 (out_px_scale out) m g
           = rsum (n_labels self)
               (fun k =>
                  softplus (loading_of wt FCLayers_forward self x ind_x m k)
                  * (softplus (data (beta self) g) * softplus (u k)))
             + softplus (loading_of wt FCLayers_forward self x ind_x m
                           (n_labels self))
               * softplus (data (eta self) g).
Proof.
  intros Hlat Hlab HM Hlen Hidx.
  destruct (fetch_gamma wt FCLayers_forward Linear_forward self x ind_x
              Hlat Hlab HM Hlen Hidx) as (G & HG & HG0 & HG1 & HG2 & HGat).
  destruct (fetch_v wt FCLayers_forward self x ind_x Hlen Hidx)
    as (v & Hv & Hvr & Hvc & Hvat).
  unfold generative. cbv zeta.
  rewrite outcome_bind, HG, outcome_bind, Hv.
  rewrite (reshape_to2_exact (rows x * n_labels self));
    [|exact Hlat|unfold numel3; cbn; rewrite HG0, HG1, HG2; lia].
  rewrite bind_ret_l.
  rewrite (reshape_to3_exact _ _ (n_genes self));
    [|nia|unfold numel2; cbn; lia].
  rewrite bind_ret_l. cbn [outcome ret snd].
  eexists. split; [reflexivity|].
  cbn [out_px_o out_gamma out_v out_px_scale out_px_rate rows cols
       dim0 dim1 dim2 cat_dim1 transpose20 map2d at2 at3].
  split; [reflexivity|]. split; [auto|].
  split; [intros m c l Hm Hc; apply HGat; assumption|].
  split; [auto|].
  split; [intros m k; rewrite Hvat; reflexivity|].
  split; [auto|]. split; [reflexivity|].
  intros m g Hg.
  set (h := px_decoder_forward softplus wt Linear_forward self
              (decoder_forward wt FCLayers_forward self
                 {| rows := (rows x * n_labels self)%nat;
                    cols := n_latent self;
                    at2 := fun i j =>
                      flat3 (transpose20 G) (i * n_latent self + j)%nat |}
                 (enum_label wt self (rows x)))).
  exists (fun k =>
            Linear_forward (weights wt (px_decoder self))
              (decoder_forward wt FCLayers_forward self
                 {| rows := (rows x * n_labels self)%nat;
                    cols := n_latent self;
                    at2 := fun i j =>
                      flat3 (transpose20 G) (i * n_latent self + j)%nat |}
                 (enum_label wt self (rows x)))
              (m * n_labels self + k)%nat g).
  rewrite rsum_snoc. f_equal.
  - apply rsum_ext. intros k Hk.
    destruct (Nat.ltb_spec k (n_labels self)) as [_|?]; [|lia].
    rewrite Hvat. f_equal. f_equal.
    change (n_genes self) with (cols h) at 1.
    rewrite flat2_at by (cbn; exact Hg). reflexivity.
  - rewrite Nat.ltb_irrefl, Hvat. reflexivity.
Qed.

End GenerativeMore.

(** X5. On a well-formed minibatch, in exact arithmetic, the mixture scale
    returned by [generative] is strictly positive for every spot and gene,
    the rate is the library size times the scale, it is non-negative on a
    row of non-negative counts, and it is zero for every gene on a row of
    zero counts. *)
Theorem generative_scale_positive
  {wt : Type}
  (FCLayers_forward : list wt -> Tensor2 -> list IndexTensor -> nat -> nat -> R)
  (Linear_forward : list wt -> Tensor2 -> nat -> nat -> R)
  (self : HSTDeconv wt) (x : Tensor2) (ind_x : IndexTensor) :
  (0 < n_latent self)%nat -> (0 < n_labels self)%nat -> (0 < rows x)%nat ->
  cols x = n_genes self ->
  len ind_x = rows x ->
  (forall m, (m < len ind_x)%nat -> (idx ind_x m < n_spots self)%nat) ->
  exists out,
    outcome (generative softplus_real wt FCLayers_forward Linear_forward self
                        x ind_x) = inr out
    /\ (forall m g, (g < n_genes self)%nat -> 0 < at2 (out_px_scale out) m g)
    /\ (forall m g,
          at2 (out_px_rate out) m g
          = row_sum x m * at2 (out_px_scale out) m g)
    /\ (forall m,
          (forall j, (j < cols x)%nat -> 0 <= at2 x m j) ->
          forall g, (g < n_genes self)%nat -> 0 <= at2 (out_px_rate out) m g)
    /\ (forall m,
          (forall j, (j < cols x)%nat -> at2 x m j = 0) ->
          forall g, at2 (out_px_rate out) m g = 0).
Proof.
  intros Hlat Hlab HM _ Hlen Hidx.
  destruct (generative_returns softplus_real wt FCLayers_forward
              Linear_forward self x ind_x Hlat Hlab HM Hlen Hidx)
    as (out & Hout & _ & _ & _ & _ & _ & _ & Hrate & Hscale).
  exists out. split; [exact Hout|].
  assert (Hpos : forall m g, (g < n_genes self)%nat ->
                             0 < at2 (out_px_scale out) m g).
  { intros m g Hg. destruct (Hscale m g Hg) as (u & ->).
    assert (0 <= rsum (n_labels self)
                   (fun k =>
                      softplus_real
                        (loading_of wt FCLayers_forward self x ind_x m k)
                      * (softplus_real (data (beta self) g)
                         * softplus_real (u k)))).
    { apply rsum_nonneg. intros k _. apply Rlt_le.
      repeat apply Rmult_lt_0_compat; apply softplus_real_pos. }
    pose proof (Rmult_lt_0_compat _ _
                  (softplus_real_pos
                     (loading_of wt FCLayers_forward self x ind_x m
                                 (n_labels self)))
                  (softplus_real_pos (data (eta self) g))).
    lra. }
  split; [exact Hpos|]. split; [exact Hrate|]. split.
  - intros m Hx g Hg. rewrite Hrate.
    apply Rmult_le_pos; [apply rsum_nonneg, Hx|apply Rlt_le, Hpos, Hg].
  - intros m Hx g. rewrite Hrate.
    replace (rsum (cols x) (at2 x m)) with 0; [lra|].
    rewrite (rsum_ext _ _ (fun _ => 0) Hx), rsum_const. lra.
Qed.

(** X6. On a well-formed minibatch [generative] returns the dispersion of the
    module, the latent code it used with shape
    [[batch, n_labels, n_latent]] (the code the mode selects for each
    spot and cell type) and the mixture weights it used with shape
    [[batch, n_labels + 1]] (the softplus of the loadings the mode
    selects). *)
Theorem generative_returns_code_and_weights
  (softplus : R -> R) {wt : Type}
  (FCLayers_forward : list wt -> Tensor2 -> list IndexTensor -> nat -> nat -> R)
  (Linear_forward : list wt -> Tensor2 -> nat -> nat -> R)
  (self : HSTDeconv wt) (x : Tensor2) (ind_x : IndexTensor) :
  (0 < n_latent self)%nat -> (0 < n_labels self)%nat -> (0 < rows x)%nat ->
  cols x = n_genes self ->
  len ind_x = rows x ->
  (forall m, (m < len ind_x)%nat -> (idx ind_x m < n_spots self)%nat) ->
  exists out,
    outcome (generative softplus wt FCLayers_forward Linear_forward self x
                        ind_x) = inr out
    /\ out_px_o out = px_o self
    /\ dim0 (out_gamma out) = rows x
    /\ dim1 (out_gamma out) = n_labels self
    /\ dim2 (out_gamma out) = n_latent self
    /\ (forall m c l,
          (m < rows x)%nat -> (c < n_labels self)%nat ->
          at3 (out_gamma out) m c l
          = code_of wt FCLayers_forward Linear_forward self x ind_x l c m)
    /\ rows (out_v out) = rows x
    /\ cols (out_v out) = (n_labels self + 1)%nat
    /\ forall m k,
         at2 (out_v out) m k
         = softplus (loading_of wt FCLayers_forward self x ind_x m k).
Proof.
  intros Hlat Hlab HM _ Hlen Hidx.
  destruct (generative_returns softplus wt FCLayers_forward Linear_forward
              self x ind_x Hlat Hlab HM Hlen Hidx)
    as (out & Hout & Ho & (Hd0 & Hd1 & Hd2) & Hg & (Hvr & Hvc) & Hv & _).
  exists out. repeat (split; [assumption|]). exact Hv.
Qed.

(** X7. Without a VAMP bank, the latent prior term that [loss] reports for a
    spot of a generated minibatch is the sum over cell types and latent
    coordinates of [code ^ 2 / 2 + ln (sqrt (2 pi))] for the spot's code,
    and it is non-negative. *)
Theorem prior_of_generated_code
  (softplus : R -> R) {wt : Type}
  (FCLayers_forward : list wt -> Tensor2 -> list IndexTensor -> nat -> nat -> R)
  (Linear_forward : list wt -> Tensor2 -> nat -> nat -> R)
  (nb_log_prob : R -> R -> R -> R)
  (self : HSTDeconv wt) (x : Tensor2) (ind_x : IndexTensor) :
  vprior self = None ->
  (0 < n_latent self)%nat -> (0 < n_labels self)%nat -> (0 < rows x)%nat ->
  cols x = n_genes self ->
  len ind_x = rows x ->
  (forall m, (m < len ind_x)%nat -> (idx ind_x m < n_spots self)%nat) ->
  exists out,
    outcome (generative softplus wt FCLayers_forward Linear_forward self x
                        ind_x) = inr out
    /\ forall kl_weight n_obs m,
         (m < rows x)%nat ->
         kl_local (loss nb_log_prob self x out kl_weight n_obs) m
         = rsum (n_labels self)
             (fun c =>
                rsum (n_latent self)
                  (fun l =>
                     code_of wt FCLayers_forward Linear_forward self x ind_x
                             l c m ^ 2 / 2
                     + ln (sqrt (2 * PI))))
         /\ 0 <= kl_local (loss nb_log_prob self x out kl_weight n_obs) m.
Proof.
  intros Hvp Hlat Hlab HM _ Hlen Hidx.
  destruct (generative_returns softplus wt FCLayers_forward Linear_forward
              self x ind_x Hlat Hlab HM Hlen Hidx)
    as (out & Hout & _ & (Hd0 & Hd1 & Hd2) & Hg & _).
  exists out. split; [exact Hout|]. intros kl_weight n_obs m Hm.
  assert (Heq : kl_local (loss nb_log_prob self x out kl_weight n_obs) m
                = rsum (n_labels self)
                    (fun c =>
                       rsum (n_latent self)
                         (fun l =>
                            code_of wt FCLayers_forward Linear_forward self x
                                    ind_x l c m ^ 2 / 2
                            + ln (sqrt (2 * PI))))).
  { unfold loss. cbn [kl_local]. unfold neg_log_likelihood_prior.
    rewrite Hvp, Hd1, Hd2, <- rsum_opp.
    apply rsum_ext. intros c Hc. rewrite <- rsum_opp.
    apply rsum_ext. intros l _.
    rewrite standard_normal_log_prob, Hg by assumption. reflexivity. }
  split; [exact Heq|]. rewrite Heq.
  apply rsum_nonneg. intros c _. apply rsum_nonneg. intros l _.
  pose proof ln_sqrt_2PI_pos.
  pose proof (pow2_ge_0
                (code_of wt FCLayers_forward Linear_forward self x ind_x
                         l c m)).
  lra.
Qed.

(** X8. In every mode that reads a stored parameter by spot index (all but
    [both]), a spot index that is [n_spots] or larger makes [generative]
    raise instead of returning. *)
Theorem generative_index_out_of_range
  (softplus : R -> R) {wt : Type}
  (FCLayers_forward : list wt -> Tensor2 -> list IndexTensor -> nat -> nat -> R)
  (Linear_forward : list wt -> Tensor2 -> nat -> nat -> R)
  (self : HSTDeconv wt) (x : Tensor2) (ind_x : IndexTensor) (m : nat) :
  amortization self <> both ->
  (0 < n_latent self)%nat -> (0 < n_labels self)%nat ->
  cols x = n_genes self ->
  (m < len ind_x)%nat -> (n_spots self <= idx ind_x m)%nat ->
  exists e,
    outcome (generative softplus wt FCLayers_forward Linear_forward self x
                        ind_x) = inl e.
Proof.
  intros Ha Hlat Hlab _ Hm Hbad. exists IndexError.
  unfold generative. cbv zeta.
  destruct (amortization self) eqn:E; [| | |contradiction];
    cbn [amortized_latent amortized_proportion].
  - unfold gamma_at. rewrite (check_index_fails _ _ m Hm Hbad).
    rewrite !outcome_bind. reflexivity.
  - unfold call_gamma_encoder, V_at.
    rewrite (check_index_fails _ _ m Hm Hbad).
    rewrite !outcome_bind. cbn [outcome log_call ret snd].
    rewrite (reshape_to3_exact _ _ (rows x));
      [|nia|unfold numel2; cbn; lia].
    cbn [outcome ret snd]. rewrite !outcome_bind. reflexivity.
  - unfold gamma_at. rewrite (check_index_fails _ _ m Hm Hbad).
    rewrite !outcome_bind. reflexivity.
Qed.

(** X9. In mode [both] the spot indices are never read: on a non-empty
    minibatch with one column per gene [generative] returns whatever the
    index tensor, also one
    with indices out of range, and the outcome does not depend on it. *)
Theorem generative_both_needs_no_indices
  (softplus : R -> R) {wt : Type}
  (FCLayers_forward : list wt -> Tensor2 -> list IndexTensor -> nat -> nat -> R)
  (Linear_forward : list wt -> Tensor2 -> nat -> nat -> R)
  (self : HSTDeconv wt) (x : Tensor2) (ind_x ind_x' : IndexTensor) :
  amortization self = both ->
  (0 < n_latent self)%nat -> (0 < n_labels self)%nat -> (0 < rows x)%nat ->
  cols x = n_genes self ->
  generative softplus wt FCLayers_forward Linear_forward self x ind_x
  = generative softplus wt FCLayers_forward Linear_forward self x ind_x'
  /\ exists out,
       outcome (generative softplus wt FCLayers_forward Linear_forward self x
                           ind_x) = inr out.
Proof.
  intros Ha Hlat Hlab HM _.
  assert (Heq : forall ix,
             generative softplus wt FCLayers_forward Linear_forward self x ix
             = generative softplus wt FCLayers_forward Linear_forward self x
                 {| len := rows x; idx := fun _ => 0%nat |}).
  { intros ix. unfold generative. rewrite Ha. reflexivity. }
  split; [rewrite (Heq ind_x), (Heq ind_x'); reflexivity|].
  rewrite (Heq ind_x). unfold generative. cbv zeta. rewrite Ha.
  cbn [amortized_latent amortized_proportion].
  unfold call_gamma_encoder, call_V_encoder.
  rewrite !outcome_bind. cbn [outcome log_call ret snd].
  rewrite (reshape_to3_exact _ _ (rows x)); [|nia|unfold numel2; cbn; lia].
  cbn [outcome ret snd]. rewrite !outcome_bind.
  cbn [outcome log_call ret snd].
  rewrite (reshape_to2_exact (rows x * n_labels self));
    [|exact Hlat|unfold numel3; cbn; lia].
  rewrite bind_ret_l.
  rewrite (reshape_to3_exact _ _ (n_genes self));
    [|nia|unfold numel2; cbn; lia].
  rewrite bind_ret_l. eexists. reflexivity.
Qed.

Lemma rsum_le (n : nat) (f g : nat -> R) :
  (forall k, (k < n)%nat -> f k <= g k) -> rsum n f <= rsum n g.
Proof.
  induction n as [|n IH]; intros H; simpl; [lra|].
  assert (rsum n f <= rsum n g) by (apply IH; intros; apply H; lia).
  specialize (H n ltac:(lia)). lra.
Qed.

(** X10. The hyperprior term of [loss] is the sum over genes of
    [eta ^ 2 / 2 + ln (sqrt (2 pi))]: it is at least
    [n_genes * ln (sqrt (2 pi))], hence non-negative, and it takes that
    least value when [eta] is zero for every gene. *)
Theorem hyperprior_lower_bound
  {wt : Type} (nb_log_prob : R -> R -> R -> R) (self : HSTDeconv wt)
  (x : Tensor2) (g : GenerativeOutputs) (kl_weight n_obs : R) :
  let glo := kl_global (loss nb_log_prob self x g kl_weight n_obs) in
  INR (n_genes self) * ln (sqrt (2 * PI)) <= glo
  /\ 0 <= glo
  /\ ((forall j, (j < n_genes self)%nat -> data (eta self) j = 0) ->
      glo = INR (n_genes self) * ln (sqrt (2 * PI))).
Proof.
  cbv zeta. unfold loss. cbn [kl_global].
  assert (Hglo : glo_neg_log_likelihood_prior self
                 = rsum (n_genes self)
                     (fun j => data (eta self) j ^ 2 / 2
                               + ln (sqrt (2 * PI)))).
  { unfold glo_neg_log_likelihood_prior. rewrite <- rsum_opp.
    apply rsum_ext. intros j _. apply standard_normal_log_prob. }
  rewrite Hglo. pose proof ln_sqrt_2PI_pos as Hc.
  assert (Hlow : INR (n_genes self) * ln (sqrt (2 * PI))
                 <= rsum (n_genes self)
                      (fun j => data (eta self) j ^ 2 / 2
                                + ln (sqrt (2 * PI)))).
  { rewrite <- rsum_const. apply rsum_le. intros j _.
    pose proof (pow2_ge_0 (data (eta self) j)). lra. }
  split; [exact Hlow|]. split.
  - pose proof (pos_INR (n_genes self)). nra.
  - intros Hz. rewrite <- rsum_const. apply rsum_ext. intros j Hj.
    rewrite (Hz j Hj). lra.
Qed.

(** X11. With a bank of exactly one pseudo-point, the VAMP prior term of a spot
    is the negative log density of its code under that point's normal
    distribution, summed over cell types and latent coordinates. *)
Theorem vamp_single_point
  {wt : Type} (self : HSTDeconv wt) (bank : VampPrior) (gamma : Tensor3)
  (m : nat) :
  p bank = 1%nat ->
  neg_log_likelihood_prior (set_vprior self (Some bank)) gamma m
  = - rsum (dim1 gamma)
        (fun c =>
           rsum (dim2 gamma)
             (fun l =>
                normal_log_prob (mean_vprior bank c 0 l)
                                (sqrt (var_vprior bank c 0 l))
                                (at3 gamma m c l))).
Proof.
  intros Hp. unfold neg_log_likelihood_prior; simpl. rewrite Hp.
  f_equal. apply rsum_ext. intros c _.
  unfold logsumexp. simpl. rewrite Rplus_0_l, ln_exp, ln_1. lra.
Qed.

(** * Cell type specific expression *)

Lemma bind_inr {A B} (t : list call) (a : A) (f : A -> Eff B) :
  bind (t, inr a) f = (t ++ trace (f a), outcome (f a)).
Proof. unfold bind, trace, outcome. destruct (f a). reflexivity. Qed.

Section CellTypeExpression.

Variable softplus : R -> R.
Variable wt : Type.
Variable FCLayers_forward :
  list wt -> Tensor2 -> list IndexTensor -> nat -> nat -> R.
Variable Linear_forward : list wt -> Tensor2 -> nat -> nat -> R.
Variable self : HSTDeconv wt.

(** X12. When the latent codes are stored, [get_ct_specific_expression] on
    valid spot indices and labels (one of each per query) invokes no
    encoder, does not read [x],
    and returns one row per query and one column per gene: the decoder is
    given, for query [b], the stored code of spot [ind_x b] for cell type
    [y b] together with the label [y b], and the entry for gene [g] is
    [exp (px_o g) * softplus (beta g)] times the projection; with a
    positive softplus every entry is positive. *)
Theorem ct_specific_expression_stored
  (x : option Tensor2) (ind_x y : IndexTensor) :
  amortized_latent (amortization self) = false ->
  len y = len ind_x ->
  (forall b, (b < len ind_x)%nat -> (idx ind_x b < n_spots self)%nat) ->
  (forall b, (b < len y)%nat -> (idx y b < n_labels self)%nat) ->
  exists out codes,
    get_ct_specific_expression softplus wt FCLayers_forward Linear_forward
      self x (Some ind_x) (Some y) = ([], inr out)
    /\ rows out = len ind_x /\ cols out = n_genes self
    /\ rows codes = len ind_x /\ cols codes = n_latent self
    /\ (forall b l,
          at2 codes b l = data (gamma self) l (idx y b) (idx ind_x b))
    /\ (forall b g,
          at2 out b g
          = exp (px_o self g) * softplus (data (beta self) g)
            * at2 (px_decoder_forward softplus wt Linear_forward self
                     (decoder_forward wt FCLayers_forward self codes y))
                  b g)
    /\ ((forall t, 0 < softplus t) -> forall b g, 0 < at2 out b g).
Proof.
  intros Ha _ Hidx Hy. unfold get_ct_specific_expression. cbv zeta.
  rewrite Ha. cbn [require]. rewrite bind_ret_l.
  unfold gamma_at. rewrite (check_index_ok _ _ Hidx), !bind_ret_l.
  cbn [dim1]. rewrite (check_index_ok _ _ Hy), bind_ret_l.
  eexists.
  exists {| rows := len ind_x; cols := n_latent self;
            at2 := fun b l => data (gamma self) l (idx y b) (idx ind_x b) |}.
  split; [reflexivity|]. cbn [rows cols at2 at3 px_decoder_forward].
  do 4 (split; [reflexivity|]). split; [reflexivity|].
  split; [reflexivity|].
  intros Hpos b g.
  repeat apply Rmult_lt_0_compat; [apply exp_pos|apply Hpos|apply Hpos].
Qed.

(** X13. The errors of [get_ct_specific_expression] when the latent codes are
    stored, for arguments with one row per query: a missing [ind_x] or [y]
    is a type error, a spot index or a label out of range an index
    error. *)
Theorem ct_specific_expression_stored_errors
  (x : option Tensor2) (ind_x y : IndexTensor) :
  amortized_latent (amortization self) = false ->
  len y = len ind_x ->
  get_ct_specific_expression softplus wt FCLayers_forward Linear_forward
    self x None (Some y) = ([], inl TypeError)
  /\ ((forall b, (b < len ind_x)%nat -> (idx ind_x b < n_spots self)%nat) ->
      get_ct_specific_expression softplus wt FCLayers_forward Linear_forward
        self x (Some ind_x) None = ([], inl TypeError))
  /\ (forall b, (b < len ind_x)%nat -> (n_spots self <= idx ind_x b)%nat ->
      get_ct_specific_expression softplus wt FCLayers_forward Linear_forward
        self x (Some ind_x) (Some y) = ([], inl IndexError))
  /\ ((forall b, (b < len ind_x)%nat -> (idx ind_x b < n_spots self)%nat) ->
      forall b, (b < len y)%nat -> (n_labels self <= idx y b)%nat ->
      get_ct_specific_expression softplus wt FCLayers_forward Linear_forward
        self x (Some ind_x) (Some y) = ([], inl IndexError)).
Proof.
  intros Ha _. unfold get_ct_specific_expression. cbv zeta. rewrite Ha.
  split; [reflexivity|]. split; [|split].
  - intros Hidx. cbn [require]. rewrite bind_ret_l. unfold gamma_at.
    rewrite (check_index_ok _ _ Hidx), !bind_ret_l. reflexivity.
  - intros b Hb Hbad. cbn [require]. rewrite bind_ret_l. unfold gamma_at.
    rewrite (check_index_fails _ _ b Hb Hbad). reflexivity.
  - intros Hidx b Hb Hbad. cbn [require]. rewrite bind_ret_l.
    unfold gamma_at. rewrite (check_index_ok _ _ Hidx), !bind_ret_l.
    cbn [dim1]. rewrite (check_index_fails _ _ b Hb Hbad). reflexivity.
Qed.

(** X14. When the latent codes are amortized, [get_ct_specific_expression], on
    arguments with one row per query and valid labels, invokes the latent
    encoder once, on [log1p x], and never the loading
    encoder; the values of [ind_x] are not read, only its length; for
    query [b] the decoder is given entry [l * n_labels + y b] of the
    encoder's output row [b]. *)
Theorem ct_specific_expression_amortized
  (x : Tensor2) (ind_x y : IndexTensor) :
  amortized_latent (amortization self) = true ->
  (0 < n_latent self)%nat -> (0 < n_labels self)%nat ->
  cols x = n_genes self ->
  len ind_x = rows x -> len y = rows x ->
  (forall b, (b < len y)%nat -> (idx y b < n_labels self)%nat) ->
  exists out codes,
    get_ct_specific_expression softplus wt FCLayers_forward Linear_forward
      self (Some x) (Some ind_x) (Some y)
    = ([gamma_encoder_call (log1p x)], inr out)
    /\ rows out = len ind_x /\ cols out = n_genes self
    /\ rows codes = len ind_x /\ cols codes = n_latent self
    /\ (forall b l,
          (b < rows x)%nat ->
          at2 codes b l
          = Linear_forward (weights wt (snd (gamma_encoder self)))
              {| rows := rows x; cols := n_hidden self;
                 at2 := FCLayers_forward
                          (weights wt (fst (gamma_encoder self)))
                          (log1p x) [] |}
              b (l * n_labels self + idx y b)%nat)
    /\ forall b g,
         at2 out b g
         = exp (px_o self g) * softplus (data (beta self) g)
           * at2 (px_decoder_forward softplus wt Linear_forward self
                    (decoder_forward wt FCLayers_forward self codes y))
                 b g.
Proof.
  intros Ha Hlat Hlab _ _ _ Hy. unfold get_ct_specific_expression. cbv zeta.
  rewrite Ha. cbn [log1p_opt require]. rewrite !bind_ret_l.
  unfold call_gamma_encoder.
  set (g0 := {| rows := rows (log1p x);
                cols := (n_latent self * n_labels self)%nat;
                at2 := Linear_forward (weights wt (snd (gamma_encoder self)))
                         {| rows := rows (log1p x); cols := n_hidden self;
                            at2 := FCLayers_forward
                                     (weights wt (fst (gamma_encoder self)))
                                     (log1p x) [] |} |}).
  unfold log_call, ret.
  repeat (rewrite bind_inr; cbn [trace outcome fst snd app]).
  rewrite (reshape_to3_exact _ _ (rows x));
    [|nia|unfold numel2; cbn; lia].
  unfold ret. cbn [trace outcome fst snd app].
  repeat (rewrite bind_inr; cbn [trace outcome fst snd app]).
  cbn [dim1]. rewrite (check_index_ok _ _ Hy). unfold ret.
  repeat (rewrite bind_inr; cbn [trace outcome fst snd app]).
  eexists.
  exists {| rows := len ind_x; cols := n_latent self;
            at2 := fun b l =>
              flat2 (transpose01 g0)
                ((l * n_labels self + idx y b) * rows x + b)%nat |}.
  split; [reflexivity|]. cbn [rows cols at2 at3 px_decoder_forward].
  do 4 (split; [reflexivity|]). split; [|reflexivity].
  intros b l Hb.
  change (rows x) with (cols (transpose01 g0)) at 1.
  rewrite flat2_at by (cbn; exact Hb). reflexivity.
Qed.

End CellTypeExpression.

(** * Construction *)

Section Construction.

Variable wt : Type.

Lemma load_state_dict_mismatch (m : nn_Module wt) (sd : gmap string wt) :
  dom sd <> list_to_set (map fst m) ->
  load_state_dict wt m sd = raise RuntimeError.
Proof.
  intros H. unfold load_state_dict.
  rewrite bool_decide_eq_false_2 by exact H. reflexivity.
Qed.

Lemma fresh_names (ws : list (string * wt)) :
  map fst (fresh wt ws) = map fst ws.
Proof. unfold fresh. rewrite map_map. reflexivity. Qed.

(** X15. The constructor raises a runtime error, and builds no module, when
    the names in the decoder's or the projection stage's state dict differ
    from the names of the module's own parameters, and when a prior mean is
    given without a prior variance. *)
Theorem init_rejects_bad_bundle
  (rnd : Fresh wt) (n_spots n_labels : nat)
  (sd0 sd1 : gmap string wt) (sd2 : nat -> R)
  (n_hidden n_latent n_genes : nat)
  (mean_vprior : option (nat * (nat -> nat -> nat -> R)))
  (var_vprior : option (nat -> nat -> nat -> R))
  (a : Amortization) :
  dom sd0 <> list_to_set (map fst (new_decoder rnd))
  \/ dom sd1 <> list_to_set (map fst (new_px_decoder rnd))
  \/ (mean_vprior <> None /\ var_vprior = None) ->
  outcome (init wt rnd n_spots n_labels (sd0, sd1, sd2) n_hidden n_latent
             n_genes mean_vprior var_vprior a) = inl RuntimeError.
Proof.
  intros H. unfold init.
  destruct (decide (dom sd0 = list_to_set (map fst (new_decoder rnd))))
    as [E0|N0].
  - destruct (load_state_dict_outcome wt (fresh wt (new_decoder rnd)) sd0)
      as (d & Hd & _); [rewrite fresh_names; exact E0|].
    rewrite outcome_bind, Hd.
    destruct (decide (dom sd1 = list_to_set (map fst (new_px_decoder rnd))))
      as [E1|N1].
    + destruct (load_state_dict_outcome wt (fresh wt (new_px_decoder rnd))
                  sd1) as (q & Hq & _); [rewrite fresh_names; exact E1|].
      rewrite outcome_bind, Hq.
      destruct H as [H|[H|[Hm Hv]]]; [contradiction|contradiction|].
      subst var_vprior. destruct mean_vprior as [[p0 mu]|]; [|contradiction].
      reflexivity.
    + rewrite outcome_bind, load_state_dict_mismatch
        by (rewrite fresh_names; exact N1).
      reflexivity.
  - rewrite outcome_bind, load_state_dict_mismatch
      by (rewrite fresh_names; exact N0).
    reflexivity.
Qed.

(** X16. When the constructor returns, everything but the reference decoder is
    trainable: the loadings, the latent codes, [eta], [beta] and every
    parameter of the two encoders track gradients; the module has the
    given sizes and mode, its dispersion is the bundle's third component,
    [beta] starts at 0.01 times its draw, and the prior bank is the given
    one. *)
Theorem init_leaves_the_rest_trainable
  (rnd : Fresh wt) (n_spots0 n_labels0 : nat)
  (sd0 sd1 : gmap string wt) (sd2 : nat -> R)
  (n_hidden0 n_latent0 n_genes0 : nat)
  (prior : option VampPrior) (a : Amortization) :
  dom sd0 = list_to_set (map fst (new_decoder rnd)) ->
  dom sd1 = list_to_set (map fst (new_px_decoder rnd)) ->
  exists self,
    outcome (init wt rnd n_spots0 n_labels0 (sd0, sd1, sd2) n_hidden0
               n_latent0 n_genes0
               (option_map (fun b => (p b, mean_vprior b)) prior)
               (option_map var_vprior prior) a) = inr self
    /\ (requires_grad (V self) = true /\ requires_grad (gamma self) = true
        /\ requires_grad (eta self) = true /\ requires_grad (beta self) = true)
    /\ Forall (fun kp => requires_grad (snd kp) = true)
              (V_encoder self ++ fst (gamma_encoder self)
                 ++ snd (gamma_encoder self))
    /\ (n_spots self = n_spots0 /\ n_labels self = n_labels0
        /\ n_hidden self = n_hidden0 /\ n_latent self = n_latent0
        /\ n_genes self = n_genes0 /\ amortization self = a)
    /\ px_o self = sd2
    /\ (forall g, data (beta self) g = 0.01 * randn_beta wt rnd g)
    /\ vprior self = prior.
Proof.
  intros E0 E1.
  destruct (load_state_dict_outcome wt (fresh wt (new_decoder rnd)) sd0)
    as (d & Hd & _); [rewrite fresh_names; exact E0|].
  destruct (load_state_dict_outcome wt (fresh wt (new_px_decoder rnd)) sd1)
    as (q & Hq & _); [rewrite fresh_names; exact E1|].
  unfold init. eexists. rewrite !outcome_bind, Hd, !outcome_bind, Hq.
  assert (Hfresh : forall ws : list (string * wt),
             Forall (fun kp => requires_grad (snd kp) = true) (fresh wt ws)).
  { intros ws. unfold fresh. apply List.Forall_forall. intros kp Hin.
    apply in_map_iff in Hin as (kw & <- & _). reflexivity. }
  destruct prior as [[p0 mu var]|]; cbn [option_map p mean_vprior var_vprior];
    rewrite ?outcome_bind; cbn [require outcome ret snd];
    (split; [reflexivity|]);
    cbn [V gamma eta beta V_encoder gamma_encoder n_spots n_labels n_hidden
         n_latent n_genes amortization px_o vprior requires_grad data fst snd];
    repeat split; try reflexivity;
    repeat (apply Forall_app; split); apply Hfresh.
Qed.

End Construction.

(** * Further properties of the model accessors *)

Lemma for_each_exact {A B} (f : A -> Eff B) (c : A -> call) (g : A -> B)
  (l : list A) :
  (forall a, In a l -> f a = ([c a], inr (g a))) ->
  for_each f l = (map c l, inr (map g l)).
Proof.
  induction l as [|a l IH]; intros H; [reflexivity|].
  cbn [for_each map]. rewrite (H a (or_introl eq_refl)), bind_inr.
  rewrite IH by (intros a' Ha'; apply H; right; exact Ha').
  rewrite bind_inr. cbn [trace outcome ret fst snd].
  rewrite app_nil_r. reflexivity.
Qed.

Lemma for_each_raises {A B} (f : A -> Eff B) (e : exn) (a : A) (l : list A) :
  f a = ([], inl e) -> for_each f (a :: l) = ([], inl e).
Proof. intros H. cbn [for_each]. rewrite H. reflexivity. Qed.

(** Concatenating a non-empty list of matrices of one width: no error, the
    rows add up, and a property of rows carries over. *)
Lemma torch_cat_exact (c : nat) (P : (nat -> R) -> Prop) (ts : list Tensor2) :
  ts <> [] ->
  Forall (fun t => cols t = c
                   /\ forall i, (i < rows t)%nat -> P (at2 t i)) ts ->
  exists r,
    torch_cat ts = ([], inr r) /\ cols r = c
    /\ rows r = list_sum (map rows ts)
    /\ forall i, (i < rows r)%nat -> P (at2 r i).
Proof.
  induction ts as [|t ts IH]; intros Hne HF; [contradiction|].
  inversion HF as [|? ? [Hc HP] HF']; subst.
  destruct ts as [|t' ts].
  - exists t. split; [reflexivity|]. split; [reflexivity|].
    split; [cbn; lia|exact HP].
  - destruct IH as (r & Hr & Hcr & Hrows & HPr); [discriminate|exact HF'|].
    change (torch_cat (t :: t' :: ts))
      with (let* r := torch_cat (t' :: ts) in
            if (cols t =? cols r)%nat then ret (cat_rows t r)
            else raise RuntimeError).
    rewrite Hr, bind_inr, Hcr, Nat.eqb_refl.
    exists (cat_rows t r). split; [reflexivity|]. split; [reflexivity|].
    split.
    + cbn [cat_rows rows]. rewrite Hrows. reflexivity.
    + intros i Hi. cbn [cat_rows rows at2] in *.
      destruct (Nat.ltb_spec i (rows t)) as [Hlt|Hge].
      * apply (HP i Hlt).
      * apply (HPr (i - rows t)%nat). lia.
Qed.

Lemma batches_cover (n K s : nat) :
  (n <= 128 * (s + K))%nat ->
  list_sum (map (fun k => Nat.min 128 (n - 128 * k)) (seq s K))
  = (n - 128 * s)%nat.
Proof.
  revert s. induction K as [|K IH]; intros s H.
  - cbn [seq map]. unfold list_sum. cbn [fold_right]. lia.
  - cbn [seq map]. unfold list_sum in *. cbn [fold_right].
    rewrite IH by lia. lia.
Qed.

(** The blocks of the loader are the rows of the matrix, each once. *)
Lemma DataLoader_rows (t : Tensor2) :
  list_sum (map rows (DataLoader t)) = rows t
  /\ Forall (fun b => cols b = cols t) (DataLoader t).
Proof.
  unfold DataLoader. split.
  - rewrite map_map. cbn [rows].
    rewrite (batches_cover (rows t) _ 0); [lia|].
    pose proof (Nat.div_mod_eq (rows t + 127) 128).
    pose proof (Nat.mod_upper_bound (rows t + 127) 128). lia.
  - apply List.Forall_forall. intros b Hb.
    apply in_map_iff in Hb as (k & <- & _). reflexivity.
Qed.

Lemma DataLoader_empty (t : Tensor2) : rows t = 0%nat -> DataLoader t = [].
Proof. intros H. unfold DataLoader. rewrite H. reflexivity. Qed.

Section ModelMore.

Variable wt : Type.
Variable FCLayers_forward :
  list wt -> Tensor2 -> list IndexTensor -> nat -> nat -> R.
Variable Linear_forward : list wt -> Tensor2 -> nat -> nat -> R.

Lemma init_returns
  (rnd : Fresh wt) (n_spots0 n_labels0 : nat)
  (sd0 sd1 : gmap string wt) (sd2 : nat -> R)
  (n_hidden0 n_latent0 n_genes0 : nat)
  (mean_vprior : option (nat * (nat -> nat -> nat -> R)))
  (var_vprior : option (nat -> nat -> nat -> R))
  (a : Amortization) :
  dom sd0 = list_to_set (map fst (new_decoder rnd)) ->
  dom sd1 = list_to_set (map fst (new_px_decoder rnd)) ->
  (mean_vprior <> None -> var_vprior <> None) ->
  exists self,
    init wt rnd n_spots0 n_labels0 (sd0, sd1, sd2) n_hidden0 n_latent0
         n_genes0 mean_vprior var_vprior a = ([], inr self)
    /\ n_spots self = n_spots0 /\ n_labels self = n_labels0
    /\ n_hidden self = n_hidden0 /\ n_latent self = n_latent0
    /\ n_genes self = n_genes0 /\ amortization self = a
    /\ frozen self.
Proof.
  intros E0 E1 Hvar. unfold init, load_state_dict.
  rewrite !fresh_names, !bool_decide_eq_true_2 by assumption.
  rewrite !bind_ret_l.
  assert (Hfr : forall d q : nn_Module wt,
             Forall (fun kp => requires_grad (snd kp) = false)
                    (disable_grad wt d ++ disable_grad wt q)).
  { intros d q. apply Forall_app. split; apply disable_grad_all_off. }
  destruct mean_vprior as [[p0 mu]|].
  - destruct var_vprior as [var|];
      [|exfalso; apply Hvar; [discriminate|reflexivity]].
    cbn [require]. rewrite !bind_ret_l.
    eexists. split; [reflexivity|]. cbn. repeat split. apply Hfr.
  - rewrite !bind_ret_l.
    eexists. split; [reflexivity|]. cbn. repeat split. apply Hfr.
Qed.

(** X17. When the bundle's names fit, [DestVI.__init__] returns a model whose
    module has one spot per row and one gene per column of the registered
    dataset and one cell type per name of the mapping, with the reference
    decoder frozen; every registered spot index is then within the
    module's range. *)
Theorem DestVI_init_sizes
  (rnd : Fresh wt) (st_adata : AnnData) (mapping : list string)
  (sd0 sd1 : gmap string wt) (sd2 : nat -> R) (n_latent0 n_hidden0 : nat)
  (mean_vprior : option (nat * (nat -> nat -> nat -> R)))
  (var_vprior : option (nat -> nat -> nat -> R))
  (a : Amortization) :
  dom sd0 = list_to_set (map fst (new_decoder rnd)) ->
  dom sd1 = list_to_set (map fst (new_px_decoder rnd)) ->
  (mean_vprior <> None -> var_vprior <> None) ->
  exists m,
    DestVI_init wt rnd st_adata mapping (sd0, sd1, sd2) n_latent0 n_hidden0
                mean_vprior var_vprior a = ([], inr m)
    /\ cell_type_mapping m = mapping /\ adata m = st_adata
    /\ n_spots (module m) = rows (X st_adata)
    /\ n_genes (module m) = cols (X st_adata)
    /\ n_labels (module m) = length mapping
    /\ n_latent (module m) = n_latent0
    /\ amortization (module m) = a
    /\ frozen (module m)
    /\ forall i, (i < len (registered_ind_x st_adata))%nat ->
                 (idx (registered_ind_x st_adata) i < n_spots (module m))%nat.
Proof.
  intros E0 E1 Hvar.
  destruct (init_returns rnd (rows (X st_adata)) (length mapping) sd0 sd1 sd2
              n_hidden0 n_latent0 (cols (X st_adata)) mean_vprior var_vprior
              a E0 E1 Hvar)
    as (self & Hinit & Hs & Hl & _ & Hlat & Hg & Ha & Hfr).
  unfold DestVI_init. rewrite Hinit, bind_inr.
  eexists. split; [reflexivity|]. cbn [cell_type_mapping adata module].
  repeat (split; [first [reflexivity|assumption]|]).
  intros i Hi. cbn [registered_ind_x len idx] in *. lia.
Qed.

(** X18. For a model whose module has one spot per registered row, the
    minibatch of any non-empty selection of registered rows is within
    bounds: [generative] returns on it, with one rate row per selected
    row, and a stored loading or latent code it uses for a row of the
    minibatch is the one stored for the selected spot. *)
Theorem generative_on_registered_minibatch
  (softplus : R -> R) (m : DestVI wt) (sel : list nat) :
  n_spots (module m) = rows (X (adata m)) ->
  n_genes (module m) = cols (X (adata m)) ->
  (0 < n_latent (module m))%nat -> (0 < n_labels (module m))%nat ->
  sel <> [] ->
  Forall (fun s => (s < rows (X (adata m)))%nat) sel ->
  exists out,
    outcome (generative softplus wt FCLayers_forward Linear_forward
               (module m) (fst (minibatch (adata m) sel))
               (snd (minibatch (adata m) sel))) = inr out
    /\ rows (out_px_rate out) = length sel
    /\ cols (out_px_rate out) = n_genes (module m)
    /\ (amortized_proportion (amortization (module m)) = false ->
        forall i k,
          at2 (out_v out) i k
          = softplus (data (V (module m)) k (nth i sel 0%nat)))
    /\ (amortized_latent (amortization (module m)) = false ->
        forall i c l,
          (i < length sel)%nat -> (c < n_labels (module m))%nat ->
          at3 (out_gamma out) i c l
          = data (gamma (module m)) l c (nth i sel 0%nat)).
Proof.
  intros Hs _ Hlat Hlab Hne Hsel.
  assert (Hlen : (0 < length sel)%nat)
    by (destruct sel; [contradiction|cbn; lia]).
  destruct (generative_returns softplus wt FCLayers_forward Linear_forward
              (module m) (fst (minibatch (adata m) sel))
              (snd (minibatch (adata m) sel)) Hlat Hlab)
    as (out & Hout & _ & _ & Hg & _ & Hv & (_ & _ & Hr & Hc) & _).
  - exact Hlen.
  - reflexivity.
  - intros i Hi. cbn [minibatch snd len idx registered_ind_x] in *.
    rewrite Hs. rewrite List.Forall_forall in Hsel.
    apply Hsel, nth_In. exact Hi.
  - exists out. split; [exact Hout|].
    split; [exact Hr|]. split; [exact Hc|]. split.
    + intros Ha i k. rewrite Hv. unfold loading_of. rewrite Ha. reflexivity.
    + intros Ha i c l Hi Hcl. rewrite Hg by assumption.
      unfold code_of. rewrite Ha. reflexivity.
Qed.

End ModelMore.

Section ModelFrames.

Variable wt : Type.
Variable FCLayers_forward :
  list wt -> Tensor2 -> list IndexTensor -> nat -> nat -> R.
Variable Linear_forward : list wt -> Tensor2 -> nat -> nat -> R.
Variable m : DestVI wt.

(** The module accessor on one block, when the loadings are amortized. *)
Lemma get_proportions_on_block (softplus : R -> R) (t : Tensor2)
  (keep_noise : bool) :
  amortized_proportion (amortization (module m)) = true ->
  get_proportions softplus wt FCLayers_forward (module m) (Some t) keep_noise
  = ([V_encoder_call t],
     inr (normalize_rows
            (retained_loadings softplus wt FCLayers_forward (module m)
                               (Some t) keep_noise))).
Proof.
  intros Ha. apply injective_projections.
  - apply trace_get_proportions. exact Ha.
  - apply get_proportions_outcome. discriminate.
Qed.

(** X19. When the loadings are stored and the model is consistent (as many
    names as cell types, as many registered rows as spots, at least one
    cell type), [DestVI.get_proportions] ignores the dataset, invokes no
    encoder and returns a frame with one row per spot, the cell type
    names as columns, followed by ["noise_term"] when the noise is kept,
    and rows that sum to 1. *)
Theorem DestVI_get_proportions_stored_frame
  (dataset : option AnnData) (keep_noise : bool) :
  amortized_proportion (amortization (module m)) = false ->
  length (cell_type_mapping m) = n_labels (module m) ->
  rows (X (adata m)) = n_spots (module m) ->
  (0 < n_labels (module m))%nat ->
  exists df,
    DestVI_get_proportions softplus_real wt FCLayers_forward m dataset
                           keep_noise = ([], inr df)
    /\ df_columns df
       = cell_type_mapping m
           ++ (if keep_noise then ["noise_term"%string] else [])
    /\ df_index df = n_spots (module m)
    /\ rows (df_data df) = n_spots (module m)
    /\ cols (df_data df) = length (df_columns df)
    /\ (forall i j, 0 < at2 (df_data df) i j)
    /\ forall i, row_sum (df_data df) i = 1.
Proof.
  intros Ha Hmap Hobs Hlab. unfold DestVI_get_proportions. rewrite Ha.
  rewrite (get_proportions_stored softplus_real wt FCLayers_forward
             (module m) None keep_noise Ha), bind_inr.
  unfold pd_DataFrame. cbn [normalize_rows retained_loadings rows cols].
  rewrite Ha, Hobs, Nat.eqb_refl, andb_true_r.
  assert (Hsum : forall i,
             0 < row_sum (retained_loadings softplus_real wt FCLayers_forward
                            (module m) None keep_noise) i).
  { intros i. apply retained_row_sum_pos; [apply softplus_real_pos|].
    right. exact Hlab. }
  assert (Hcols : ((if keep_noise then n_labels (module m) + 1
                    else n_labels (module m))
                   =? length (if keep_noise
                              then cell_type_mapping m ++ ["noise_term"%string]
                              else cell_type_mapping m))%nat = true).
  { apply Nat.eqb_eq. destruct keep_noise; [|lia].
    rewrite length_app. cbn [length]. lia. }
  rewrite Hcols. eexists. split; [reflexivity|].
  cbn [df_columns df_index df_data normalize_rows rows cols at2].
  split; [destruct keep_noise; [reflexivity|rewrite app_nil_r; reflexivity]|].
  split; [reflexivity|].
  split; [cbn [normalize_rows retained_loadings rows]; rewrite Ha;
          reflexivity|].
  split; [apply Nat.eqb_eq in Hcols; exact Hcols|]. split.
  - intros i j. apply Rdiv_lt_0_compat; [apply softplus_real_pos|apply Hsum].
  - intros i.
    change (row_sum (normalize_rows
                       (retained_loadings softplus_real wt FCLayers_forward
                                          (module m) None keep_noise)) i = 1).
    apply row_sum_normalize_rows. specialize (Hsum i). lra.
Qed.

(** X20. When the loadings are amortized and the noise is not kept, on a
    non-empty dataset with as many rows as the registered one,
    [DestVI.get_proportions] invokes the loading encoder once per block of
    128 rows, in order, on the block as it is, and returns a frame with one
    row per row of the dataset, the cell type names as columns, and rows
    that sum to 1. *)
Theorem DestVI_get_proportions_amortized_frame (dataset : AnnData) :
  amortized_proportion (amortization (module m)) = true ->
  length (cell_type_mapping m) = n_labels (module m) ->
  rows (X dataset) = rows (X (adata m)) ->
  cols (X dataset) = n_genes (module m) ->
  (0 < rows (X dataset))%nat ->
  (0 < n_labels (module m))%nat ->
  exists df,
    DestVI_get_proportions softplus_real wt FCLayers_forward m (Some dataset)
                           false
    = (map V_encoder_call (DataLoader (X dataset)), inr df)
    /\ df_columns df = cell_type_mapping m
    /\ rows (df_data df) = rows (X dataset)
    /\ cols (df_data df) = n_labels (module m)
    /\ forall i, (i < rows (X dataset))%nat -> row_sum (df_data df) i = 1.
Proof.
  intros Ha Hmap Hobs _ Hrows Hlab. unfold DestVI_get_proportions.
  rewrite Ha. cbn [require]. rewrite bind_ret_l.
  rewrite (for_each_exact _ V_encoder_call
             (fun t => normalize_rows
                         (retained_loadings softplus_real wt FCLayers_forward
                                            (module m) (Some t) false)))
    by (intros t _; apply get_proportions_on_block, Ha).
  rewrite bind_inr.
  destruct (torch_cat_exact (n_labels (module m))
              (fun row => rsum (n_labels (module m)) row = 1)
              (map (fun t => normalize_rows
                               (retained_loadings softplus_real wt
                                  FCLayers_forward (module m) (Some t) false))
                   (DataLoader (X dataset))))
    as (r & Hr & Hc & Hrw & Hone).
  { intros E. apply map_eq_nil in E.
    exact (DataLoader_nonempty (X dataset) Hrows E). }
  { apply List.Forall_forall. intros b Hb.
    apply in_map_iff in Hb as (t & <- & _). split; [reflexivity|].
    intros i _.
    change (row_sum (normalize_rows
                       (retained_loadings softplus_real wt FCLayers_forward
                                          (module m) (Some t) false)) i = 1).
    apply row_sum_normalize_rows.
    pose proof (retained_row_sum_pos softplus_real wt FCLayers_forward
                  (module m) (Some t) false i softplus_real_pos
                  (or_intror Hlab)).
    lra. }
  rewrite Hr. cbn [trace outcome fst snd]. rewrite bind_inr.
  assert (Hrr : rows r = rows (X dataset)).
  { rewrite Hrw, map_map. cbn [normalize_rows retained_loadings rows].
    rewrite Ha. apply (proj1 (DataLoader_rows (X dataset))). }
  unfold pd_DataFrame.
  rewrite Hc, Hmap, Nat.eqb_refl, Hrr, Hobs, Nat.eqb_refl.
  cbn [andb ret trace outcome fst snd]. rewrite !app_nil_r.
  eexists. split; [reflexivity|]. cbn [df_columns df_data].
  split; [reflexivity|]. split; [rewrite Hrr; exact Hobs|].
  split; [exact Hc|].
  intros i Hi. unfold row_sum. rewrite Hc. apply Hone.
  rewrite Hrr, Hobs. exact Hi.
Qed.

(** X21. The errors of [DestVI.get_proportions] when the loadings are
    amortized: without a dataset it raises an attribute error before any
    encoder call; on a dataset without rows it raises, having nothing to
    concatenate, again before any encoder call; on a dataset whose number
    of rows
    differs from the registered one it raises a value error after the
    encoder calls, the frame's index not fitting. *)
Theorem DestVI_get_proportions_amortized_errors
  (softplus : R -> R) (dataset : AnnData) (keep_noise : bool) :
  amortized_proportion (amortization (module m)) = true ->
  DestVI_get_proportions softplus wt FCLayers_forward m None keep_noise
  = ([], inl AttributeError)
  /\ (rows (X dataset) = 0%nat ->
      exists e,
        DestVI_get_proportions softplus wt FCLayers_forward m (Some dataset)
                               keep_noise = ([], inl e))
  /\ ((0 < rows (X dataset))%nat ->
      cols (X dataset) = n_genes (module m) ->
      rows (X dataset) <> rows (X (adata m)) ->
      DestVI_get_proportions softplus wt FCLayers_forward m (Some dataset)
                             keep_noise
      = (map V_encoder_call (DataLoader (X dataset)), inl ValueError)).
Proof.
  intros Ha. unfold DestVI_get_proportions. rewrite Ha.
  split; [reflexivity|]. split.
  - intros Hz. cbn [require]. rewrite bind_ret_l.
    rewrite (DataLoader_empty _ Hz). eexists. reflexivity.
  - intros Hrows _ Hne. cbn [require]. rewrite bind_ret_l.
    rewrite (for_each_exact _ V_encoder_call
               (fun t => normalize_rows
                           (retained_loadings softplus wt FCLayers_forward
                                              (module m) (Some t) false)))
      by (intros t _; apply get_proportions_on_block, Ha).
    rewrite bind_inr.
    destruct (torch_cat_exact (n_labels (module m)) (fun _ => True)
                (map (fun t => normalize_rows
                                 (retained_loadings softplus wt
                                    FCLayers_forward (module m) (Some t)
                                    false))
                     (DataLoader (X dataset))))
      as (r & Hr & Hc & Hrw & _).
    { intros E. apply map_eq_nil in E.
      exact (DataLoader_nonempty (X dataset) Hrows E). }
    { apply List.Forall_forall. intros b Hb.
      apply in_map_iff in Hb as (t & <- & _). split; [reflexivity|]. auto. }
    rewrite Hr. cbn [trace outcome fst snd]. rewrite bind_inr.
    assert (Hrr : rows r = rows (X dataset)).
    { rewrite Hrw, map_map. cbn [normalize_rows retained_loadings rows].
      rewrite Ha. apply (proj1 (DataLoader_rows (X dataset))). }
    unfold pd_DataFrame. rewrite Hrr.
    replace (rows (X dataset) =? rows (X (adata m)))%nat with false
      by (symmetry; apply Nat.eqb_neq; exact Hne).
    rewrite andb_false_r. cbn [raise trace outcome fst snd].
    rewrite !app_nil_r. reflexivity.
Qed.

End ModelFrames.

Lemma torch_cat_last_exact (a b : nat) (ts : list Tensor3) :
  ts <> [] ->
  Forall (fun t => dim0 t = a /\ dim1 t = b) ts ->
  exists r,
    torch_cat_last ts = ([], inr r) /\ dim0 r = a /\ dim1 r = b
    /\ dim2 r = list_sum (map dim2 ts).
Proof.
  induction ts as [|t ts IH]; intros Hne HF; [contradiction|].
  inversion HF as [|? ? [Ha Hb] HF']; subst.
  destruct ts as [|t' ts].
  - exists t. split; [reflexivity|]. split; [reflexivity|].
    split; [reflexivity|]. cbn. lia.
  - destruct IH as (r & Hr & Hra & Hrb & Hr2); [discriminate|exact HF'|].
    change (torch_cat_last (t :: t' :: ts))
      with (let* r := torch_cat_last (t' :: ts) in
            if ((dim0 t =? dim0 r) && (dim1 t =? dim1 r))%nat
            then ret (cat_dim2 t r) else raise RuntimeError).
    rewrite Hr, bind_inr, Hra, Hrb, !Nat.eqb_refl.
    exists (cat_dim2 t r). split; [reflexivity|]. split; [reflexivity|].
    split; [reflexivity|]. cbn [cat_dim2 dim2]. rewrite Hr2. reflexivity.
Qed.

Section ModelCodes.

Variable wt : Type.
Variable FCLayers_forward :
  list wt -> Tensor2 -> list IndexTensor -> nat -> nat -> R.
Variable Linear_forward : list wt -> Tensor2 -> nat -> nat -> R.
Variable m : DestVI wt.

(** The module accessor on one block, when the codes are amortized. *)
Lemma get_gamma_on_block (t : Tensor2) :
  amortized_latent (amortization (module m)) = true ->
  (0 < n_latent (module m))%nat -> (0 < n_labels (module m))%nat ->
  get_gamma wt FCLayers_forward Linear_forward (module m) (Some t)
  = ([gamma_encoder_call t],
     inr (reshaped_code wt FCLayers_forward Linear_forward (module m) t)).
Proof.
  intros Ha Hlat Hlab. unfold get_gamma. rewrite Ha.
  unfold call_gamma_encoder, log_call, ret.
  repeat (rewrite bind_inr; cbn [trace outcome fst snd app]).
  rewrite (reshape_to3_exact _ _ (rows t));
    [reflexivity|nia|unfold numel2; cbn; lia].
Qed.

(** X22. When the codes are stored, [DestVI.get_gamma] ignores the dataset,
    invokes no encoder and returns the stored codes with the spot axis
    first: shape [[n_spots, n_latent, n_labels]], entry [(s, l, c)] being
    the stored code of spot [s], coordinate [l], cell type [c]. *)
Theorem DestVI_get_gamma_stored_layout (dataset : option AnnData) :
  amortized_latent (amortization (module m)) = false ->
  exists res,
    DestVI_get_gamma wt FCLayers_forward Linear_forward m dataset
    = ([], inr res)
    /\ dim0 res = n_spots (module m)
    /\ dim1 res = n_latent (module m)
    /\ dim2 res = n_labels (module m)
    /\ forall s l c, at3 res s l c = data (gamma (module m)) l c s.
Proof.
  intros Ha. unfold DestVI_get_gamma, get_gamma. rewrite Ha, bind_ret_l.
  eexists. split; [reflexivity|]. repeat split.
Qed.

(** X23. When the codes are amortized, on a non-empty dataset with one column
    per gene, [DestVI.get_gamma] invokes the latent encoder once per block
    of 128 rows, in order, on the block as it is, and returns a tensor of
    shape [[rows, n_latent, n_labels]]; without a dataset it raises an
    attribute error before any encoder call. *)
Theorem DestVI_get_gamma_amortized_shape (dataset : AnnData) :
  amortized_latent (amortization (module m)) = true ->
  (0 < n_latent (module m))%nat -> (0 < n_labels (module m))%nat ->
  cols (X dataset) = n_genes (module m) ->
  (0 < rows (X dataset))%nat ->
  (exists res,
     DestVI_get_gamma wt FCLayers_forward Linear_forward m (Some dataset)
     = (map gamma_encoder_call (DataLoader (X dataset)), inr res)
     /\ dim0 res = rows (X dataset)
     /\ dim1 res = n_latent (module m)
     /\ dim2 res = n_labels (module m))
  /\ DestVI_get_gamma wt FCLayers_forward Linear_forward m None
     = ([], inl AttributeError).
Proof.
  intros Ha Hlat Hlab _ Hrows. unfold DestVI_get_gamma. rewrite Ha.
  split; [|reflexivity].
  cbn [require]. rewrite bind_ret_l.
  rewrite (for_each_exact _ gamma_encoder_call
             (reshaped_code wt FCLayers_forward Linear_forward (module m)))
    by (intros t _; apply get_gamma_on_block; assumption).
  rewrite bind_inr.
  destruct (torch_cat_last_exact (n_latent (module m)) (n_labels (module m))
              (map (reshaped_code wt FCLayers_forward Linear_forward
                                  (module m))
                   (DataLoader (X dataset))))
    as (r & Hr & Hr0 & Hr1 & Hr2).
  { intros E. apply map_eq_nil in E.
    exact (DataLoader_nonempty (X dataset) Hrows E). }
  { apply List.Forall_forall. intros b Hb.
    apply in_map_iff in Hb as (t & <- & _). split; reflexivity. }
  rewrite Hr. cbn [trace outcome fst snd]. rewrite bind_inr.
  cbn [ret trace outcome fst snd]. rewrite !app_nil_r.
  eexists. split; [reflexivity|]. cbn [np_transpose_201 dim0 dim1 dim2].
  split; [|split; assumption].
  rewrite Hr2, map_map. cbn [reshaped_code dim2].
  apply (proj1 (DataLoader_rows (X dataset))).
Qed.

End ModelCodes.

(** * Further properties of the configuration handling of [Autotune] *)

Section AutotuneMore.

Context {Val : Type}.

(** [d[key]] for an optional dictionary, nothing when it is [None]. *)
Local Abbreviation look d key := (match d with
                                  | Some d' => d' !! key
                                  | None => None
                                  end).

Lemma merge_config_lookup (mh th ph : option (gmap string Val))
  (key : string) :
  merge_config [mh; th; ph] !! key
  = match look ph key with
    | Some v => Some v
    | None => match look th key with
              | Some v => Some v
              | None => look mh key
              end
    end.
Proof.
  unfold merge_config, dict_update. cbn [fold_left].
  destruct ph as [ph|], th as [th|], mh as [mh|];
    rewrite ?lookup_union, ?lookup_empty;
    repeat match goal with
           | |- context [?d !! key] => destruct (d !! key)
           end; reflexivity.
Qed.

(** X24. The configuration that [Autotune.__init__] merges gives a key the
    value of the last dictionary that defines it, in the order model,
    trainer, plan; a dictionary passed as [None] is skipped. *)
Theorem Autotune_init_config_precedence
  (mh th ph : option (gmap string Val)) (key : string) :
  config (Autotune_init mh th ph) !! key
  = match look ph key with
    | Some v => Some v
    | None => match look th key with
              | Some v => Some v
              | None => look mh key
              end
    end.
Proof. apply merge_config_lookup. Qed.

Lemma filter_no_trainer_key (config : gmap string Val) :
  filter (fun kv => kv.1 ∈ dom (∅ : gmap string Val)) config = ∅.
Proof.
  apply map_eq. intros key. rewrite lookup_empty.
  apply map_lookup_filter_None. right. intros v _ Hin.
  cbn in Hin. rewrite dom_empty_L in Hin. set_solver.
Qed.

(** X25. With the default (empty) trainer hyperparameters, whatever the
    configuration, both splits give three empty dictionaries: no sampled
    hyperparameter reaches the model, the trainer or the plan. *)
Theorem default_trainer_hyperparams_drop_everything
  (self : Autotune Val) (config : gmap string Val) :
  trainer_hyperparams self = Some ∅ ->
  _scvi_trainable self config = inr (∅, ∅, ∅)
  /\ run_best_configs self config = inr (∅, ∅, ∅).
Proof.
  intros Hth. unfold _scvi_trainable, run_best_configs. rewrite Hth.
  rewrite split_same_dict, filter_no_trainer_key. split; reflexivity.
Qed.

Lemma split_without_dict (config : gmap string Val) :
  (config = ∅ ->
   map_fold (route (Val := Val) None None None) (inr (∅, ∅, ∅)) config
   = inr (∅, ∅, ∅))
  /\ (config <> ∅ ->
      map_fold (route (Val := Val) None None None) (inr (∅, ∅, ∅)) config
      = inl TypeError).
Proof.
  apply (map_fold_weak_ind
           (fun r (m : gmap string Val) =>
              (m = ∅ -> r = inr (∅, ∅, ∅)) /\ (m <> ∅ -> r = inl TypeError))).
  - split; [reflexivity|contradiction].
  - intros key v m r Hnone [Hempty Hfull]. split.
    + intros E. exfalso. exact (insert_non_empty m key v E).
    + intros _. destruct (decide (size m = 0%nat)) as [Hz|Hnz].
      * apply map_size_empty_iff in Hz. rewrite (Hempty Hz). reflexivity.
      * rewrite Hfull; [reflexivity|].
        intros E. apply Hnz. rewrite E. apply map_size_empty.
Qed.

(** X26. When [trainer_hyperparams] is [None], both splits raise a type error
    on any non-empty configuration, and return three empty dictionaries on
    the empty one. *)
Theorem trainer_hyperparams_none
  (self : Autotune Val) (config : gmap string Val) :
  trainer_hyperparams self = None ->
  (config <> ∅ ->
   _scvi_trainable self config = inl TypeError
   /\ run_best_configs self config = inl TypeError)
  /\ _scvi_trainable self ∅ = inr (∅, ∅, ∅)
  /\ run_best_configs self ∅ = inr (∅, ∅, ∅).
Proof.
  intros Hth. unfold _scvi_trainable, run_best_configs. rewrite Hth.
  split.
  - intros Hne. rewrite (proj2 (split_without_dict config) Hne).
    split; reflexivity.
  - rewrite (proj1 (split_without_dict ∅) eq_refl). split; reflexivity.
Qed.

(** X27. A tuner built by [Autotune.__init__] with a trainer dictionary, run
    on its own merged configuration, hands the model exactly the keys of
    the trainer dictionary, each with the plan's value when the plan
    dictionary defines the key too and with the trainer's value otherwise;
    a key of the model dictionary alone is handed to nobody. *)
Theorem Autotune_init_then_split
  (mh ph : option (gmap string Val)) (th : gmap string Val) :
  exists routed,
    _scvi_trainable (Autotune_init mh (Some th) ph)
                    (config (Autotune_init mh (Some th) ph))
    = inr (routed, ∅, ∅)
    /\ forall key,
         routed !! key
         = match th !! key with
           | Some v => match look ph key with
                       | Some v' => Some v'
                       | None => Some v
                       end
           | None => None
           end.
Proof.
  eexists. split.
  - unfold _scvi_trainable. cbn [trainer_hyperparams Autotune_init].
    apply split_same_dict.
  - intros key. cbn [config Autotune_init].
    rewrite map_lookup_filter, merge_config_lookup. cbn [fst].
    destruct (th !! key) as [v|] eqn:Eth.
    + assert (Hin : key ∈ dom th) by (apply elem_of_dom; eauto).
      destruct (look ph key) as [v'|]; cbn;
        rewrite option_guard_True by exact Hin; reflexivity.
    + assert (Hout : key ∉ dom th) by (apply not_elem_of_dom; exact Eth).
      destruct (look ph key) as [v'|]; cbn.
      * rewrite option_guard_False by exact Hout. reflexivity.
      * destruct (look mh key); cbn; [|reflexivity].
        rewrite option_guard_False by exact Hout. reflexivity.
Qed.

End AutotuneMore.

(** * The further statements at the small instances *)

Lemma get_proportions_stored_ignores_x_witness :
  amortized_proportion (amortization (toy_module latent)) = false
  /\ exists res,
       get_proportions softplus_real unit zero_layers (toy_module latent)
                       (Some toy_counts) true = ([], inr res).
Proof.
  assert (H1 : amortized_proportion (amortization (toy_module latent))
               = false) by reflexivity.
  split; [exact H1|].
  destruct (get_proportions_stored_ignores_x softplus_real unit zero_layers
              (toy_module latent) (Some toy_counts) true H1)
    as (res & Hres & _).
  exists res. exact Hres.
Defined.

Lemma get_gamma_amortized_layout_witness :
  amortized_latent (amortization (toy_module both)) = true
  /\ (0 < n_latent (toy_module both))%nat
  /\ (0 < n_labels (toy_module both))%nat
  /\ cols toy_counts = n_genes (toy_module both)
  /\ exists G,
       get_gamma unit zero_layers zero_linear (toy_module both)
                 (Some toy_counts) = ([gamma_encoder_call toy_counts], inr G).
Proof.
  assert (H1 : amortized_latent (amortization (toy_module both)) = true)
    by reflexivity.
  assert (H2 : (0 < n_latent (toy_module both))%nat) by (simpl; lia).
  assert (H3 : (0 < n_labels (toy_module both))%nat) by (simpl; lia).
  assert (H4 : cols toy_counts = n_genes (toy_module both)) by reflexivity.
  repeat (split; [assumption|]).
  destruct (get_gamma_amortized_layout unit zero_layers zero_linear
              (toy_module both) toy_counts H1 H2 H3 H4) as (G & HG & _).
  exists G. exact HG.
Defined.

Lemma proportions_noise_share_witness :
  (0 < n_labels (toy_module both))%nat
  /\ (amortized_proportion (amortization (toy_module both)) = true ->
      exists t, Some toy_counts = Some t
                /\ cols t = n_genes (toy_module both))
  /\ exists with_noise,
       outcome (get_proportions softplus_real unit zero_layers
                  (toy_module both) (Some toy_counts) true) = inr with_noise.
Proof.
  assert (H1 : (0 < n_labels (toy_module both))%nat) by (simpl; lia).
  assert (H2 : amortized_proportion (amortization (toy_module both)) = true ->
               exists t, Some toy_counts = Some t
                         /\ cols t = n_genes (toy_module both))
    by (intros _; exists toy_counts; split; reflexivity).
  repeat (split; [assumption|]).
  destruct (proportions_noise_share zero_layers (toy_module both)
              (Some toy_counts) H1 H2) as (w & _ & Hw & _).
  exists w. exact Hw.
Defined.

Lemma generative_scale_positive_witness :
  (0 < n_latent (toy_module none))%nat
  /\ (0 < n_labels (toy_module none))%nat
  /\ (0 < rows toy_counts)%nat
  /\ cols toy_counts = n_genes (toy_module none)
  /\ len toy_ind_x = rows toy_counts
  /\ (forall m, (m < len toy_ind_x)%nat ->
                (idx toy_ind_x m < n_spots (toy_module none))%nat)
  /\ exists out,
       outcome (generative softplus_real unit zero_layers zero_linear
                  (toy_module none) toy_counts toy_ind_x) = inr out
       /\ forall m g, (g < n_genes (toy_module none))%nat ->
                      0 < at2 (out_px_scale out) m g.
Proof.
  assert (H1 : (0 < n_latent (toy_module none))%nat) by (simpl; lia).
  assert (H2 : (0 < n_labels (toy_module none))%nat) by (simpl; lia).
  assert (H3 : (0 < rows toy_counts)%nat) by (simpl; lia).
  assert (H4 : cols toy_counts = n_genes (toy_module none)) by reflexivity.
  assert (H5 : len toy_ind_x = rows toy_counts) by reflexivity.
  assert (H6 : forall m, (m < len toy_ind_x)%nat ->
                         (idx toy_ind_x m < n_spots (toy_module none))%nat)
    by (intros m _; simpl; lia).
  repeat (split; [assumption|]).
  destruct (generative_scale_positive zero_layers zero_linear
              (toy_module none) toy_counts toy_ind_x H1 H2 H3 H4 H5 H6)
    as (out & Hout & Hpos & _).
  exists out. split; [exact Hout|exact Hpos].
Defined.

Lemma generative_returns_code_and_weights_witness :
  (0 < n_latent (toy_module proportion))%nat
  /\ (0 < n_labels (toy_module proportion))%nat
  /\ (0 < rows toy_counts)%nat
  /\ cols toy_counts = n_genes (toy_module proportion)
  /\ len toy_ind_x = rows toy_counts
  /\ (forall m, (m < len toy_ind_x)%nat ->
                (idx toy_ind_x m < n_spots (toy_module proportion))%nat)
  /\ exists out,
       outcome (generative softplus_real unit zero_layers zero_linear
                  (toy_module proportion) toy_counts toy_ind_x) = inr out
       /\ cols (out_v out) = 3%nat.
Proof.
  assert (H1 : (0 < n_latent (toy_module proportion))%nat) by (simpl; lia).
  assert (H2 : (0 < n_labels (toy_module proportion))%nat) by (simpl; lia).
  assert (H3 : (0 < rows toy_counts)%nat) by (simpl; lia).
  assert (H4 : cols toy_counts = n_genes (toy_module proportion))
    by reflexivity.
  assert (H5 : len toy_ind_x = rows toy_counts) by reflexivity.
  assert (H6 : forall m, (m < len toy_ind_x)%nat ->
                 (idx toy_ind_x m < n_spots (toy_module proportion))%nat)
    by (intros m _; simpl; lia).
  repeat (split; [assumption|]).
  destruct (generative_returns_code_and_weights softplus_real zero_layers
              zero_linear (toy_module proportion) toy_counts toy_ind_x
              H1 H2 H3 H4 H5 H6)
    as (out & Hout & _ & _ & _ & _ & _ & _ & Hc & _).
  exists out. split; [exact Hout|exact Hc].
Defined.

Lemma prior_of_generated_code_witness :
  vprior (toy_module none) = None
  /\ (0 < n_latent (toy_module none))%nat
  /\ (0 < n_labels (toy_module none))%nat
  /\ (0 < rows toy_counts)%nat
  /\ cols toy_counts = n_genes (toy_module none)
  /\ len toy_ind_x = rows toy_counts
  /\ (forall m, (m < len toy_ind_x)%nat ->
                (idx toy_ind_x m < n_spots (toy_module none))%nat)
  /\ exists out,
       outcome (generative softplus_real unit zero_layers zero_linear
                  (toy_module none) toy_counts toy_ind_x) = inr out
       /\ 0 <= kl_local (loss zero_density (toy_module none) toy_counts out
                              1 2) 0.
Proof.
  assert (H0 : vprior (toy_module none) = None) by reflexivity.
  assert (H1 : (0 < n_latent (toy_module none))%nat) by (simpl; lia).
  assert (H2 : (0 < n_labels (toy_module none))%nat) by (simpl; lia).
  assert (H3 : (0 < rows toy_counts)%nat) by (simpl; lia).
  assert (H4 : cols toy_counts = n_genes (toy_module none)) by reflexivity.
  assert (H5 : len toy_ind_x = rows toy_counts) by reflexivity.
  assert (H6 : forall m, (m < len toy_ind_x)%nat ->
                         (idx toy_ind_x m < n_spots (toy_module none))%nat)
    by (intros m _; simpl; lia).
  repeat (split; [assumption|]).
  destruct (prior_of_generated_code softplus_real zero_layers zero_linear
              zero_density (toy_module none) toy_counts toy_ind_x
              H0 H1 H2 H3 H4 H5 H6) as (out & Hout & Hkl).
  exists out. split; [exact Hout|].
  exact (proj2 (Hkl 1 2 0%nat H3)).
Defined.

Lemma generative_index_out_of_range_witness :
  amortization (toy_module none) <> both
  /\ (0 < n_latent (toy_module none))%nat
  /\ (0 < n_labels (toy_module none))%nat
  /\ cols toy_counts = n_genes (toy_module none)
  /\ (0 < len far_ind_x)%nat
  /\ (n_spots (toy_module none) <= idx far_ind_x 0)%nat
  /\ exists e,
       outcome (generative softplus_real unit zero_layers zero_linear
                  (toy_module none) toy_counts far_ind_x) = inl e.
Proof.
  assert (H0 : amortization (toy_module none) <> both) by discriminate.
  assert (H1 : (0 < n_latent (toy_module none))%nat) by (simpl; lia).
  assert (H2 : (0 < n_labels (toy_module none))%nat) by (simpl; lia).
  assert (H3 : cols toy_counts = n_genes (toy_module none)) by reflexivity.
  assert (H4 : (0 < len far_ind_x)%nat) by (simpl; lia).
  assert (H5 : (n_spots (toy_module none) <= idx far_ind_x 0)%nat)
    by (simpl; lia).
  repeat (split; [assumption|]).
  exact (generative_index_out_of_range softplus_real zero_layers zero_linear
           (toy_module none) toy_counts far_ind_x 0 H0 H1 H2 H3 H4 H5).
Defined.

Lemma generative_both_needs_no_indices_witness :
  amortization (toy_module both) = both
  /\ (0 < n_latent (toy_module both))%nat
  /\ (0 < n_labels (toy_module both))%nat
  /\ (0 < rows toy_counts)%nat
  /\ cols toy_counts = n_genes (toy_module both)
  /\ exists out,
       outcome (generative softplus_real unit zero_layers zero_linear
                  (toy_module both) toy_counts far_ind_x) = inr out.
Proof.
  assert (H0 : amortization (toy_module both) = both) by reflexivity.
  assert (H1 : (0 < n_latent (toy_module both))%nat) by (simpl; lia).
  assert (H2 : (0 < n_labels (toy_module both))%nat) by (simpl; lia).
  assert (H3 : (0 < rows toy_counts)%nat) by (simpl; lia).
  assert (H4 : cols toy_counts = n_genes (toy_module both)) by reflexivity.
  repeat (split; [assumption|]).
  exact (proj2 (generative_both_needs_no_indices softplus_real zero_layers
                  zero_linear (toy_module both) toy_counts far_ind_x
                  toy_ind_x H0 H1 H2 H3 H4)).
Defined.

Lemma vamp_single_point_witness :
  p one_point_bank = 1%nat
  /\ neg_log_likelihood_prior
       (set_vprior (toy_module none) (Some one_point_bank)) toy_gamma 0
     = - rsum (dim1 toy_gamma)
           (fun c =>
              rsum (dim2 toy_gamma)
                (fun l =>
                   normal_log_prob (mean_vprior one_point_bank c 0 l)
                                   (sqrt (var_vprior one_point_bank c 0 l))
                                   (at3 toy_gamma 0 c l))).
Proof.
  assert (H1 : p one_point_bank = 1%nat) by reflexivity.
  exact (conj H1 (vamp_single_point (toy_module none) one_point_bank
                    toy_gamma 0 H1)).
Defined.

Lemma ct_specific_expression_stored_witness :
  amortized_latent (amortization (toy_module none)) = false
  /\ len toy_labels = len toy_ind_x
  /\ (forall b, (b < len toy_ind_x)%nat ->
                (idx toy_ind_x b < n_spots (toy_module none))%nat)
  /\ (forall b, (b < len toy_labels)%nat ->
                (idx toy_labels b < n_labels (toy_module none))%nat)
  /\ exists out,
       get_ct_specific_expression softplus_real unit zero_layers zero_linear
         (toy_module none) None (Some toy_ind_x) (Some toy_labels)
       = ([], inr out).
Proof.
  assert (H1 : amortized_latent (amortization (toy_module none)) = false)
    by reflexivity.
  assert (H2 : len toy_labels = len toy_ind_x) by reflexivity.
  assert (H3 : forall b, (b < len toy_ind_x)%nat ->
                         (idx toy_ind_x b < n_spots (toy_module none))%nat)
    by (intros b _; simpl; lia).
  assert (H4 : forall b, (b < len toy_labels)%nat ->
                         (idx toy_labels b < n_labels (toy_module none))%nat)
    by (intros b _; simpl; lia).
  repeat (split; [assumption|]).
  destruct (ct_specific_expression_stored softplus_real unit zero_layers
              zero_linear (toy_module none) None toy_ind_x toy_labels
              H1 H2 H3 H4) as (out & codes & Hout & _).
  exists out. exact Hout.
Defined.

Lemma ct_specific_expression_stored_errors_witness :
  amortized_latent (amortization (toy_module none)) = false
  /\ len far_labels = len toy_ind_x
  /\ get_ct_specific_expression softplus_real unit zero_layers zero_linear
       (toy_module none) None (Some toy_ind_x) (Some far_labels)
     = ([], inl IndexError).
Proof.
  assert (H1 : amortized_latent (amortization (toy_module none)) = false)
    by reflexivity.
  assert (H2 : len far_labels = len toy_ind_x) by reflexivity.
  repeat (split; [assumption|]).
  refine (proj2 (proj2 (proj2
            (ct_specific_expression_stored_errors softplus_real unit
               zero_layers zero_linear (toy_module none) None toy_ind_x
               far_labels H1 H2))) _ 0%nat _ _).
  - intros b _. simpl. lia.
  - simpl. lia.
  - simpl. lia.
Defined.

Lemma ct_specific_expression_amortized_witness :
  amortized_latent (amortization (toy_module latent)) = true
  /\ (0 < n_latent (toy_module latent))%nat
  /\ (0 < n_labels (toy_module latent))%nat
  /\ cols toy_counts = n_genes (toy_module latent)
  /\ len toy_ind_x = rows toy_counts
  /\ len toy_labels = rows toy_counts
  /\ (forall b, (b < len toy_labels)%nat ->
                (idx toy_labels b < n_labels (toy_module latent))%nat)
  /\ exists out,
       get_ct_specific_expression softplus_real unit zero_layers zero_linear
         (toy_module latent) (Some toy_counts) (Some toy_ind_x)
         (Some toy_labels)
       = ([gamma_encoder_call (log1p toy_counts)], inr out).
Proof.
  assert (H1 : amortized_latent (amortization (toy_module latent)) = true)
    by reflexivity.
  assert (H2 : (0 < n_latent (toy_module latent))%nat) by (simpl; lia).
  assert (H3 : (0 < n_labels (toy_module latent))%nat) by (simpl; lia).
  assert (H4 : cols toy_counts = n_genes (toy_module latent)) by reflexivity.
  assert (H5 : len toy_ind_x = rows toy_counts) by reflexivity.
  assert (H6 : len toy_labels = rows toy_counts) by reflexivity.
  assert (H7 : forall b, (b < len toy_labels)%nat ->
                 (idx toy_labels b < n_labels (toy_module latent))%nat)
    by (intros b _; simpl; lia).
  repeat (split; [assumption|]).
  destruct (ct_specific_expression_amortized softplus_real unit zero_layers
              zero_linear (toy_module latent) toy_counts toy_ind_x toy_labels
              H1 H2 H3 H4 H5 H6 H7) as (out & codes & Hout & _).
  exists out. exact Hout.
Defined.

Lemma init_rejects_bad_bundle_witness :
  (dom (fst (fst toy_bundle)) <> list_to_set (map fst (new_decoder toy_fresh))
   \/ dom (snd (fst toy_bundle))
      <> list_to_set (map fst (new_px_decoder toy_fresh))
   \/ (Some (5%nat, fun _ _ _ : nat => 0) <> None
       /\ @None (nat -> nat -> nat -> R) = None))
  /\ outcome (init unit toy_fresh 2 2
                (fst (fst toy_bundle), snd (fst toy_bundle), snd toy_bundle)
                1 1 2 (Some (5%nat, fun _ _ _ => 0)) None none)
     = inl RuntimeError.
Proof.
  assert (H1 : dom (fst (fst toy_bundle))
               <> list_to_set (map fst (new_decoder toy_fresh))
               \/ dom (snd (fst toy_bundle))
                  <> list_to_set (map fst (new_px_decoder toy_fresh))
               \/ (Some (5%nat, fun _ _ _ : nat => 0) <> None
                   /\ @None (nat -> nat -> nat -> R) = None))
    by (right; right; split; [discriminate|reflexivity]).
  exact (conj H1
           (init_rejects_bad_bundle unit toy_fresh 2 2 (fst (fst toy_bundle))
              (snd (fst toy_bundle)) (snd toy_bundle) 1 1 2
              (Some (5%nat, fun _ _ _ => 0)) None none H1)).
Defined.

Lemma init_leaves_the_rest_trainable_witness :
  dom (fst (fst toy_bundle)) = list_to_set (map fst (new_decoder toy_fresh))
  /\ dom (snd (fst toy_bundle))
     = list_to_set (map fst (new_px_decoder toy_fresh))
  /\ exists self,
       outcome (init unit toy_fresh 2 2
                  (fst (fst toy_bundle), snd (fst toy_bundle),
                   snd toy_bundle) 1 1 2
                  (option_map (fun b => (p b, mean_vprior b))
                              (Some standard_bank))
                  (option_map var_vprior (Some standard_bank)) both)
       = inr self
       /\ requires_grad (V self) = true
       /\ vprior self = Some standard_bank.
Proof.
  assert (H1 : dom (fst (fst toy_bundle))
               = list_to_set (map fst (new_decoder toy_fresh)))
    by (vm_compute; reflexivity).
  assert (H2 : dom (snd (fst toy_bundle))
               = list_to_set (map fst (new_px_decoder toy_fresh)))
    by (vm_compute; reflexivity).
  repeat (split; [assumption|]).
  destruct (init_leaves_the_rest_trainable unit toy_fresh 2 2
              (fst (fst toy_bundle)) (snd (fst toy_bundle)) (snd toy_bundle)
              1 1 2 (Some standard_bank) both H1 H2)
    as (self & Hinit & (HV & _) & _ & _ & _ & _ & Hvp).
  exists self. repeat split; assumption.
Defined.

Lemma DestVI_init_sizes_witness :
  dom (fst (fst toy_bundle)) = list_to_set (map fst (new_decoder toy_fresh))
  /\ dom (snd (fst toy_bundle))
     = list_to_set (map fst (new_px_decoder toy_fresh))
  /\ (@None (nat * (nat -> nat -> nat -> R)) <> None ->
      @None (nat -> nat -> nat -> R) <> None)
  /\ exists m,
       DestVI_init unit toy_fresh (adata (toy_model none))
                   ["B"%string; "T"%string]
                   (fst (fst toy_bundle), snd (fst toy_bundle),
                    snd toy_bundle) 1 1 None None none = ([], inr m)
       /\ n_spots (module m) = 2%nat /\ n_labels (module m) = 2%nat.
Proof.
  assert (H1 : dom (fst (fst toy_bundle))
               = list_to_set (map fst (new_decoder toy_fresh)))
    by (vm_compute; reflexivity).
  assert (H2 : dom (snd (fst toy_bundle))
               = list_to_set (map fst (new_px_decoder toy_fresh)))
    by (vm_compute; reflexivity).
  assert (H3 : @None (nat * (nat -> nat -> nat -> R)) <> None ->
               @None (nat -> nat -> nat -> R) <> None)
    by (intros H; exfalso; apply H; reflexivity).
  repeat (split; [assumption|]).
  destruct (DestVI_init_sizes unit toy_fresh (adata (toy_model none))
              ["B"%string; "T"%string] (fst (fst toy_bundle))
              (snd (fst toy_bundle)) (snd toy_bundle) 1 1 None None none
              H1 H2 H3)
    as (m & Hm & _ & _ & Hs & _ & Hl & _).
  exists m. repeat split; assumption.
Defined.

Lemma generative_on_registered_minibatch_witness :
  n_spots (module (toy_model none)) = rows (X (adata (toy_model none)))
  /\ n_genes (module (toy_model none)) = cols (X (adata (toy_model none)))
  /\ (0 < n_latent (module (toy_model none)))%nat
  /\ (0 < n_labels (module (toy_model none)))%nat
  /\ [1%nat; 0%nat] <> []
  /\ Forall (fun s => (s < rows (X (adata (toy_model none))))%nat)
            [1%nat; 0%nat]
  /\ exists out,
       outcome (generative softplus_real unit zero_layers zero_linear
                  (module (toy_model none))
                  (fst (minibatch (adata (toy_model none)) [1%nat; 0%nat]))
                  (snd (minibatch (adata (toy_model none)) [1%nat; 0%nat])))
       = inr out
       /\ rows (out_px_rate out) = 2%nat.
Proof.
  assert (H1 : n_spots (module (toy_model none))
               = rows (X (adata (toy_model none)))) by reflexivity.
  assert (H2 : n_genes (module (toy_model none))
               = cols (X (adata (toy_model none)))) by reflexivity.
  assert (H3 : (0 < n_latent (module (toy_model none)))%nat) by (simpl; lia).
  assert (H4 : (0 < n_labels (module (toy_model none)))%nat) by (simpl; lia).
  assert (H5 : [1%nat; 0%nat] <> []) by discriminate.
  assert (H6 : Forall (fun s => (s < rows (X (adata (toy_model none))))%nat)
                      [1%nat; 0%nat])
    by (repeat constructor; simpl; lia).
  repeat (split; [assumption|]).
  destruct (generative_on_registered_minibatch unit zero_layers zero_linear
              softplus_real (toy_model none) [1%nat; 0%nat]
              H1 H2 H3 H4 H5 H6) as (out & Hout & Hr & _).
  exists out. split; [exact Hout|exact Hr].
Defined.

Lemma DestVI_get_proportions_stored_frame_witness :
  amortized_proportion (amortization (module (toy_model latent))) = false
  /\ length (cell_type_mapping (toy_model latent))
     = n_labels (module (toy_model latent))
  /\ rows (X (adata (toy_model latent))) = n_spots (module (toy_model latent))
  /\ (0 < n_labels (module (toy_model latent)))%nat
  /\ exists df,
       DestVI_get_proportions softplus_real unit zero_layers
         (toy_model latent) None true = ([], inr df)
       /\ df_columns df = ["B"%string; "T"%string; "noise_term"%string].
Proof.
  assert (H1 : amortized_proportion
                 (amortization (module (toy_model latent))) = false)
    by reflexivity.
  assert (H2 : length (cell_type_mapping (toy_model latent))
               = n_labels (module (toy_model latent))) by reflexivity.
  assert (H3 : rows (X (adata (toy_model latent)))
               = n_spots (module (toy_model latent))) by reflexivity.
  assert (H4 : (0 < n_labels (module (toy_model latent)))%nat)
    by (simpl; lia).
  repeat (split; [assumption|]).
  destruct (DestVI_get_proportions_stored_frame unit zero_layers
              (toy_model latent) None true H1 H2 H3 H4)
    as (df & Hdf & Hcols & _).
  exists df. split; [exact Hdf|exact Hcols].
Defined.

Lemma DestVI_get_proportions_amortized_frame_witness :
  amortized_proportion (amortization (module (toy_model both))) = true
  /\ length (cell_type_mapping (toy_model both))
     = n_labels (module (toy_model both))
  /\ rows (X (adata (toy_model both))) = rows (X (adata (toy_model both)))
  /\ cols (X (adata (toy_model both))) = n_genes (module (toy_model both))
  /\ (0 < rows (X (adata (toy_model both))))%nat
  /\ (0 < n_labels (module (toy_model both)))%nat
  /\ exists df,
       outcome (DestVI_get_proportions softplus_real unit zero_layers
                  (toy_model both) (Some (adata (toy_model both))) false)
       = inr df
       /\ cols (df_data df) = 2%nat.
Proof.
  assert (H1 : amortized_proportion
                 (amortization (module (toy_model both))) = true)
    by reflexivity.
  assert (H2 : length (cell_type_mapping (toy_model both))
               = n_labels (module (toy_model both))) by reflexivity.
  assert (H3 : rows (X (adata (toy_model both)))
               = rows (X (adata (toy_model both)))) by reflexivity.
  assert (H4 : cols (X (adata (toy_model both)))
               = n_genes (module (toy_model both))) by reflexivity.
  assert (H5 : (0 < rows (X (adata (toy_model both))))%nat) by (simpl; lia).
  assert (H6 : (0 < n_labels (module (toy_model both)))%nat) by (simpl; lia).
  repeat (split; [assumption|]).
  destruct (DestVI_get_proportions_amortized_frame unit zero_layers
              (toy_model both) (adata (toy_model both)) H1 H2 H3 H4 H5 H6)
    as (df & Hdf & _ & _ & Hc & _).
  exists df. split; [rewrite Hdf; reflexivity|exact Hc].
Defined.

Lemma DestVI_get_proportions_amortized_errors_witness :
  amortized_proportion (amortization (module (toy_model both))) = true
  /\ DestVI_get_proportions softplus_real unit zero_layers (toy_model both)
       None false = ([], inl AttributeError).
Proof.
  assert (H1 : amortized_proportion
                 (amortization (module (toy_model both))) = true)
    by reflexivity.
  exact (conj H1
           (proj1 (DestVI_get_proportions_amortized_errors unit zero_layers
                     (toy_model both) softplus_real
                     (adata (toy_model both)) false H1))).
Defined.

Lemma DestVI_get_gamma_stored_layout_witness :
  amortized_latent (amortization (module (toy_model proportion))) = false
  /\ exists res,
       DestVI_get_gamma unit zero_layers zero_linear (toy_model proportion)
                        None = ([], inr res)
       /\ dim0 res = 2%nat.
Proof.
  assert (H1 : amortized_latent
                 (amortization (module (toy_model proportion))) = false)
    by reflexivity.
  split; [exact H1|].
  destruct (DestVI_get_gamma_stored_layout unit zero_layers zero_linear
              (toy_model proportion) None H1) as (res & Hres & Hd & _).
  exists res. split; [exact Hres|exact Hd].
Defined.

Lemma DestVI_get_gamma_amortized_shape_witness :
  amortized_latent (amortization (module (toy_model both))) = true
  /\ (0 < n_latent (module (toy_model both)))%nat
  /\ (0 < n_labels (module (toy_model both)))%nat
  /\ cols (X (adata (toy_model both))) = n_genes (module (toy_model both))
  /\ (0 < rows (X (adata (toy_model both))))%nat
  /\ exists res,
       outcome (DestVI_get_gamma unit zero_layers zero_linear
                  (toy_model both) (Some (adata (toy_model both))))
       = inr res
       /\ dim0 res = 2%nat.
Proof.
  assert (H1 : amortized_latent
                 (amortization (module (toy_model both))) = true)
    by reflexivity.
  assert (H2 : (0 < n_latent (module (toy_model both)))%nat) by (simpl; lia).
  assert (H3 : (0 < n_labels (module (toy_model both)))%nat) by (simpl; lia).
  assert (H4 : cols (X (adata (toy_model both)))
               = n_genes (module (toy_model both))) by reflexivity.
  assert (H5 : (0 < rows (X (adata (toy_model both))))%nat) by (simpl; lia).
  repeat (split; [assumption|]).
  destruct (DestVI_get_gamma_amortized_shape unit zero_layers zero_linear
              (toy_model both) (adata (toy_model both)) H1 H2 H3 H4 H5)
    as ((res & Hres & Hd & _) & _).
  exists res. split; [rewrite Hres; reflexivity|exact Hd].
Defined.

Lemma default_trainer_hyperparams_drop_everything_witness :
  trainer_hyperparams test_tuner = Some ∅
  /\ _scvi_trainable test_tuner (config test_tuner) = inr (∅, ∅, ∅).
Proof.
  assert (H1 : trainer_hyperparams test_tuner = Some ∅) by reflexivity.
  exact (conj H1
           (proj1 (default_trainer_hyperparams_drop_everything test_tuner
                     (config test_tuner) H1))).
Defined.

Lemma trainer_hyperparams_none_witness :
  trainer_hyperparams none_tuner = None
  /\ _scvi_trainable none_tuner ∅ = inr (∅, ∅, ∅).
Proof.
  assert (H1 : trainer_hyperparams none_tuner = None) by reflexivity.
  exact (conj H1
           (proj1 (proj2 (trainer_hyperparams_none none_tuner
                            (config none_tuner) H1)))).
Defined.
